(** * The user service of service-template: a shallow embedding

    The development follows [internal/business/service/service.go].  The
    service is a thin layer over a relational store: every operation sends
    one or two SQL statements and turns the answers into domain errors.  The
    embedding keeps that shape.  The store is a table of user rows together
    with a journal of the statements sent to it; the operations are
    computations in a state monad over that world; the libraries the service
    calls (identifier parsing and generation, password hashing, the database
    driver's failures) are a class of collaborators, so that every theorem
    holds whatever they answer. *)

From Stdlib Require Import ZArith List String Ascii Bool Lia Sorted Permutation.
From Stdlib Require Import Strings.Byte.
Import ListNotations.

Local Open Scope Z_scope.
Local Open Scope list_scope.

(** ** Machine integers

    [pageNumber], [rowsPerPage] and the offset computed from them are Go
    [int]s: 64 bits wide on the platforms the service is built for, with
    silent wrap-around on overflow. *)

Definition int_min : Z := - 2 ^ 63.
Definition int_max : Z := 2 ^ 63 - 1.

Definition is_int (z : Z) : Prop := int_min <= z <= int_max.

Definition int_wrap (z : Z) : Z := (z + 2 ^ 63) mod 2 ^ 64 - 2 ^ 63.

Definition int_sub (a b : Z) : Z := int_wrap (a - b).
Definition int_mul (a b : Z) : Z := int_wrap (a * b).

(** Closes goals that place concrete numbers in the range of [int]. *)
Ltac int_range := unfold is_int, int_min, int_max; simpl; lia.

(** ** Package [time]

    An instant is kept as the standard library keeps it: the seconds since
    the first instant of year 1, a 64-bit integer, the nanoseconds within
    that second, and a location.  The monotonic clock reading that some
    instants carry plays no part in what the service computes and is left
    out.  Adding seconds saturates at the ends of the 64-bit range. *)

Module time.

Inductive Location : Type :=
| UTCLoc
| Zone (name : string) (offsetSeconds : Z).

Record Time : Type := mkTime {
  sec : Z;
  nsec : Z;
  loc : Location
}.

(** The seconds from year 1 to the Unix epoch. *)
Definition unixToInternal : Z := 62135596800.
Definition internalToUnix : Z := - unixToInternal.


(** A [Duration] is a count of nanoseconds. *)
Definition Duration : Type := Z.

Definition Second : Duration := 1000000000.
Definition Hour : Duration := 3600 * Second.

(** [t.addSec(d)]: the sum of the seconds, or, when it overflows, the end
    of the range on the side of [d]. *)
Definition addSec (s d : Z) : Z :=
  let sum := int_wrap (s + d) in
  if Bool.eqb (s <? sum) (0 <? d) then sum
  else if 0 <? d then 2 ^ 63 - 1
  else - (2 ^ 63 - 1).

(** [t.Add(d)]: the whole seconds of [d] are added to the seconds with
    [addSec], the rest to the nanoseconds, which are brought back within
    one second. *)
Definition Add (t : Time) (d : Duration) : Time :=
  let dsec := Z.quot d 1000000000 in
  let ns := nsec t + Z.rem d 1000000000 in
  if 1000000000 <=? ns
  then mkTime (addSec (sec t) (dsec + 1)) (ns - 1000000000) (loc t)
  else if ns <? 0
  then mkTime (addSec (sec t) (dsec - 1)) (ns + 1000000000) (loc t)
  else mkTime (addSec (sec t) dsec) ns (loc t).

(** [t.Unix()]: the seconds since the Unix epoch, in 64-bit arithmetic;
    the location plays no part. *)
Definition Unix (t : Time) : Z := int_wrap (sec t + internalToUnix).

(** [t.UTC()]: the same instant, located in UTC. *)
Definition UTC (t : Time) : Time := mkTime (sec t) (nsec t) UTCLoc.

(** The zero [Time]: the first instant of year 1, in UTC. *)
Definition zero : Time := mkTime 0 0 UTCLoc.

End time.

(** ** Package [jwt]: the registered claims *)

Module jwt.

Record StandardClaims : Type := mkStandardClaims {
  Audience : string;
  ExpiresAt : Z;
  Id : string;
  IssuedAt : Z;
  Issuer : string;
  NotBefore : Z;
  Subject : string
}.

Definition zero : StandardClaims :=
  mkStandardClaims EmptyString 0 EmptyString 0 EmptyString 0 EmptyString.

End jwt.

(** ** Package [auth]: the caller's claims *)

Module auth.

(** Modelled from the spec: the [Claims] struct is declared in
    [internal/business/auth], which is not among the sources.  It embeds
    the registered claims and adds the caller's roles, as the literal built
    in [Authenticate] shows. *)
Record Claims : Type := mkClaims {
  Standard : jwt.StandardClaims;
  Roles : list string
}.

Definition Subject (c : Claims) : string := jwt.Subject (Standard c).

Definition zero : Claims := mkClaims jwt.zero [].

(** Modelled from the spec: the method [Claims.Authorized] lives in
    [internal/business/auth], which is not among the sources.  The spec
    describes it as a set-membership test on the caller's role set: the
    caller is authorized when its roles contain one of the wanted roles. *)
Definition Authorized (c : Claims) (roles : list string) : bool :=
  existsb (fun has => existsb (fun want => String.eqb has want) roles) (Roles c).

End auth.

(** ** The data model of package [service] *)

(** Modelled from the spec: the [User] struct is declared in a file of the
    package that is not among the sources.  Its fields are the ones
    [Create] fills in, in that order. *)
Record User : Type := mkUser {
  ID : string;
  Name : string;
  LastName : string;
  Email : string;
  Country : string;
  PasswordHash : list byte;
  Roles : list string;
  DateCreated : time.Time;
  DateUpdated : time.Time
}.

(** The zero value [User{}] that accompanies every error. *)
Definition zeroUser : User :=
  mkUser EmptyString EmptyString EmptyString EmptyString EmptyString
         [] [] time.zero time.zero.

Module NewUserRequest.
(** Modelled from the spec: the request struct is declared outside the
    sources; these are the fields [Create] reads. *)
Record t : Type := mk {
  Name : string;
  LastName : string;
  Email : string;
  Country : string;
  Password : string;
  Roles : list string
}.
End NewUserRequest.

Module UpdateUserRequest.
(** Modelled from the spec: the request struct is declared outside the
    sources; these are the fields [Update] reads. *)
Record t : Type := mk {
  Name : string;
  LastName : string;
  Email : string;
  Country : string
}.
End UpdateUserRequest.

(** ** Errors

    The five sentinels of the package, the driver's [sql.ErrNoRows], the
    errors raised by the libraries, and the wrappers built by
    [errors.Wrap] and [errors.Wrapf] (format and arguments are kept apart
    rather than rendered).  A Go [error] is such a value or [nil]. *)

Inductive error_value : Type :=
| ErrNotFound
| ErrInvalidID
| ErrDuplicatedEmail
| ErrAuthenticationFailure
| ErrForbidden
| sql_ErrNoRows
| library_error (msg : string)
| Wrapf (cause : error_value) (format : string) (args : list string).

Definition error : Type := option error_value.

Definition Wrap (cause : error_value) (msg : string) : error_value :=
  Wrapf cause msg [].

(** The domain errors, which callers branch on. *)
Definition is_domain_error (e : error_value) : bool :=
  match e with
  | ErrNotFound | ErrInvalidID | ErrDuplicatedEmail
  | ErrAuthenticationFailure | ErrForbidden => true
  | _ => false
  end.

(** ** The store

    One constructor per SQL statement of [service.go], carrying the
    statement's arguments in the order they are bound:
    - [CountByEmail]: SELECT COUNT( * ) FROM users WHERE email=$1, in [Create];
    - [InsertUser]: INSERT INTO users, all nine columns, in [Create];
    - [UpdateUser]: UPDATE users SET name, last_name, email, country,
      date_updated WHERE user_id=$6, in [Update];
    - [DeleteUser]: DELETE FROM users WHERE user_id = $1, in [Delete];
    - [SelectPage]: SELECT * FROM users ORDER BY user_id OFFSET $1 ROWS
      FETCH NEXT $2 ROWS ONLY, in [GetAll];
    - [SelectByID]: SELECT * FROM users WHERE user_id = $1, in [GetByID];
    - [SelectByEmail]: SELECT * FROM users WHERE email = $1, in
      [getByEmail]. *)

Inductive Stmt : Type :=
| CountByEmail (email : string)
| InsertUser (u : User)
| UpdateUser (name lastName email country : string)
             (dateUpdated : time.Time) (id : string)
| DeleteUser (id : string)
| SelectPage (offset limit : Z)
| SelectByID (id : string)
| SelectByEmail (email : string).

(** The world an operation runs in: the rows of table [users] in storage
    order, the statements sent so far, oldest first, and the number of
    random draws made so far. *)
Record World : Type := mkWorld {
  table : list User;
  journal : list Stmt;
  entropy : nat
}.

(** ** The collaborators

    What the service calls and does not define.  [uuid_Parse] and
    [bcrypt_CompareHashAndPassword] answer with their error, [None] for
    [nil]; [uuid_New] and [bcrypt_GenerateFromPassword] are indexed by the
    random draw they consume; [driver_fault] says, for the current rows and
    a statement, whether the driver fails it (lost connection, cancelled
    context, violated constraint) and with which message. *)

Class Collaborators : Type := {
  RoleAdmin : string;
  uuid_Parse : string -> option string;
  uuid_New : nat -> string;
  bcrypt_GenerateFromPassword : nat -> list byte -> Z -> list byte * option string;
  bcrypt_CompareHashAndPassword : list byte -> list byte -> option string;
  driver_fault : list User -> Stmt -> option string
}.

Definition bcrypt_DefaultCost : Z := 10.

(** ** Computations over the world *)

Definition IO (A : Type) : Type := World -> A * World.

Definition ret {A : Type} (a : A) : IO A := fun w => (a, w).

Definition bind {A B : Type} (c : IO A) (k : A -> IO B) : IO B :=
  fun w => let (a, w') := c w in k a w'.

Declare Scope io_scope.
Delimit Scope io_scope with io.
Notation "x <- c ;; k" := (bind c (fun x => k))
  (at level 61, c at next level, right associativity) : io_scope.
Notation "' pat <- c ;; k" := (bind c (fun x => match x with pat => k end))
  (at level 61, pat pattern, c at next level, right associativity) : io_scope.
Local Open Scope io_scope.

Definition get_table : IO (list User) := fun w => (table w, w).

Definition set_table (t : list User) : IO unit :=
  fun w => (tt, mkWorld t (journal w) (entropy w)).

(** One random draw: the index of the draw, and the counter moves on. *)
Definition draw : IO nat :=
  fun w => (entropy w, mkWorld (table w) (journal w) (S (entropy w))).

(** ** ORDER BY user_id

    Rows are ordered by comparing identifiers byte by byte, which on the
    lower-case text of an identifier is the order of the identifiers
    themselves. *)

Definition id_leb (u v : User) : bool := String.leb (ID u) (ID v).

Fixpoint insert_by_id (u : User) (l : list User) : list User :=
  match l with
  | [] => [u]
  | v :: l' => if id_leb u v then u :: l else v :: insert_by_id u l'
  end.

Fixpoint order_by_user_id (l : list User) : list User :=
  match l with
  | [] => []
  | u :: l' => insert_by_id u (order_by_user_id l')
  end.

(** OFFSET [offset] ROWS FETCH NEXT [limit] ROWS ONLY, on ordered rows. *)
Definition page (offset limit : Z) (rows : list User) : list User :=
  firstn (Z.to_nat limit) (skipn (Z.to_nat offset) rows).

(** Rows in ascending order of identifier. *)
Definition ascending : list User -> Prop :=
  Sorted (fun u v => String.leb (ID u) (ID v) = true).

(** The world once statement [s] has been sent: rows and random draws as
    they were, the statement at the end of the journal. *)
Definition logged (s : Stmt) (w : World) : World :=
  mkWorld (table w) (journal w ++ [s]) (entropy w).

Section Service.

Context `{Collaborators}.

(** *** The database handle [us.db] *)

(** A statement reaches the driver: it is journalled, and the driver
    either fails it or lets it through. *)
Definition send (s : Stmt) : IO (option string) :=
  fun w => (driver_fault (table w) s, logged s w).

(** [QueryRowContext(ctx, q1, email).Scan(&numUsers)] *)
Definition db_count_by_email (email : string) : IO (Z * error) :=
  f <- send (CountByEmail email) ;;
  match f with
  | Some m => ret (0, Some (library_error m))
  | None =>
      t <- get_table ;;
      ret (Z.of_nat (List.length (filter (fun u => String.eqb (Email u) email) t)), None)
  end.

(** [ExecContext] of the INSERT statement. *)
Definition db_insert (u : User) : IO error :=
  f <- send (InsertUser u) ;;
  match f with
  | Some m => ret (Some (library_error m))
  | None =>
      t <- get_table ;;
      _ <- set_table (t ++ [u]) ;;
      ret None
  end.

Definition set_profile (name lastName email country : string)
           (dateUpdated : time.Time) (u : User) : User :=
  mkUser (ID u) name lastName email country (PasswordHash u) (Roles u)
         (DateCreated u) dateUpdated.

(** [ExecContext] of the UPDATE statement: every row with that
    identifier takes the new values. *)
Definition db_update (name lastName email country : string)
           (dateUpdated : time.Time) (id : string) : IO error :=
  f <- send (UpdateUser name lastName email country dateUpdated id) ;;
  match f with
  | Some m => ret (Some (library_error m))
  | None =>
      t <- get_table ;;
      _ <- set_table
             (map (fun u => if String.eqb (ID u) id
                            then set_profile name lastName email country dateUpdated u
                            else u) t) ;;
      ret None
  end.

(** [ExecContext] of the DELETE statement. *)
Definition db_delete (id : string) : IO error :=
  f <- send (DeleteUser id) ;;
  match f with
  | Some m => ret (Some (library_error m))
  | None =>
      t <- get_table ;;
      _ <- set_table (filter (fun u => negb (String.eqb (ID u) id)) t) ;;
      ret None
  end.

(** [SelectContext] of the paged SELECT.  The engine refuses a negative
    OFFSET and a negative row count. *)
Definition db_select_page (offset limit : Z) : IO (list User * error) :=
  f <- send (SelectPage offset limit) ;;
  match f with
  | Some m => ret ([], Some (library_error m))
  | None =>
      if offset <? 0 then ret ([], Some (library_error "OFFSET must not be negative"))
      else if limit <? 0 then ret ([], Some (library_error "LIMIT must not be negative"))
      else
        t <- get_table ;;
        ret (page offset limit (order_by_user_id t), None)
  end.

(** [GetContext]: the first row of the answer, [sql.ErrNoRows] when
    there is none. *)
Definition db_get (s : Stmt) (matches : User -> bool) : IO (User * error) :=
  f <- send s ;;
  match f with
  | Some m => ret (zeroUser, Some (library_error m))
  | None =>
      t <- get_table ;;
      match find matches t with
      | Some u => ret (u, None)
      | None => ret (zeroUser, Some sql_ErrNoRows)
      end
  end.

Definition db_get_by_id (id : string) : IO (User * error) :=
  db_get (SelectByID id) (fun u => String.eqb (ID u) id).

Definition db_get_by_email (email : string) : IO (User * error) :=
  db_get (SelectByEmail email) (fun u => String.eqb (Email u) email).

(** *** The random collaborators, as computations *)

Definition GenerateFromPassword (password : list byte) (cost : Z)
  : IO (list byte * error) :=
  n <- draw ;;
  match bcrypt_GenerateFromPassword n password cost with
  | (h, Some m) => ret (h, Some (library_error m))
  | (h, None) => ret (h, None)
  end.

Definition uuid_New_String : IO string :=
  n <- draw ;;
  ret (uuid_New n).

(** *** The operations of [userService] *)

Definition Create (nur : NewUserRequest.t) (now : time.Time) : IO (User * error) :=
  '(numUsers, err) <- db_count_by_email (NewUserRequest.Email nur) ;;
  match err with
  | Some e =>
      ret (zeroUser,
           Some (Wrapf e "looking for users with the email %s" [NewUserRequest.Email nur]))
  | None =>
      if negb (numUsers =? 0) then ret (zeroUser, Some ErrDuplicatedEmail)
      else
        '(hash, err) <- GenerateFromPassword
                          (list_byte_of_string (NewUserRequest.Password nur))
                          bcrypt_DefaultCost ;;
        match err with
        | Some e => ret (zeroUser, Some (Wrap e "generating password hash"))
        | None =>
            id <- uuid_New_String ;;
            let u := mkUser id
                            (NewUserRequest.Name nur)
                            (NewUserRequest.LastName nur)
                            (NewUserRequest.Email nur)
                            (NewUserRequest.Country nur)
                            hash
                            (NewUserRequest.Roles nur)
                            (time.UTC now)
                            (time.UTC now) in
            err <- db_insert u ;;
            match err with
            | Some e => ret (zeroUser, Some (Wrap e "inserting user"))
            | None => ret (u, None)
            end
        end
  end.

Definition GetByID (claims : auth.Claims) (userID : string) : IO (User * error) :=
  match uuid_Parse userID with
  | Some _ => ret (zeroUser, Some ErrInvalidID)
  | None =>
      if negb (auth.Authorized claims [RoleAdmin])
         && negb (String.eqb (auth.Subject claims) userID)
      then ret (zeroUser, Some ErrForbidden)
      else
        '(u, err) <- db_get_by_id userID ;;
        match err with
        | Some sql_ErrNoRows => ret (zeroUser, Some ErrNotFound)
        | Some e => ret (zeroUser, Some (Wrapf e "selecting user %q" [userID]))
        | None => ret (u, None)
        end
  end.

Definition Update (claims : auth.Claims) (userID : string)
           (uur : UpdateUserRequest.t) (now : time.Time) : IO (User * error) :=
  '(u, err) <- GetByID claims userID ;;
  match err with
  | Some e => ret (zeroUser, Some e)
  | None =>
      let u := set_profile (UpdateUserRequest.Name uur)
                           (UpdateUserRequest.LastName uur)
                           (UpdateUserRequest.Email uur)
                           (UpdateUserRequest.Country uur)
                           (time.UTC now) u in
      err <- db_update (Name u) (LastName u) (Email u) (Country u)
                       (DateUpdated u) (ID u) ;;
      match err with
      | Some e => ret (zeroUser, Some (Wrap e "updating user"))
      | None => ret (u, None)
      end
  end.

Definition Delete (claims : auth.Claims) (userID : string) : IO error :=
  match uuid_Parse userID with
  | Some _ => ret (Some ErrInvalidID)
  | None =>
      if negb (auth.Authorized claims [RoleAdmin])
         && negb (String.eqb (auth.Subject claims) userID)
      then ret (Some ErrForbidden)
      else
        err <- db_delete userID ;;
        match err with
        | Some e => ret (Some (Wrapf e "deleting user %s" [userID]))
        | None => ret None
        end
  end.

Definition GetAll (pageNumber rowsPerPage : Z) : IO (list User * error) :=
  let offset := int_mul (int_sub pageNumber 1) rowsPerPage in
  '(users, err) <- db_select_page offset rowsPerPage ;;
  match err with
  | Some e => ret ([], Some (Wrap e "selecting users"))
  | None => ret (users, None)
  end.

Definition getByEmail (email : string) : IO (User * error) :=
  '(u, err) <- db_get_by_email email ;;
  match err with
  | Some sql_ErrNoRows => ret (zeroUser, Some ErrNotFound)
  | Some e => ret (zeroUser, Some (Wrapf e "selecting user %q" [email]))
  | None => ret (u, None)
  end.

Definition Authenticate (now : time.Time) (email password : string)
  : IO (auth.Claims * error) :=
  '(u, err) <- getByEmail email ;;
  match err with
  | Some ErrNotFound => ret (auth.zero, Some ErrAuthenticationFailure)
  | Some e => ret (auth.zero, Some (Wrap e "selecting single user"))
  | None =>
      match bcrypt_CompareHashAndPassword (PasswordHash u) (list_byte_of_string password) with
      | Some _ => ret (auth.zero, Some ErrAuthenticationFailure)
      | None =>
          let claims :=
            {| auth.Standard :=
                 {| jwt.Issuer := "service template";
                    jwt.Subject := ID u;
                    jwt.Audience := "clients";
                    jwt.ExpiresAt := time.Unix (time.Add now time.Hour);
                    jwt.IssuedAt := time.Unix now;
                    jwt.Id := EmptyString;
                    jwt.NotBefore := 0 |};
               auth.Roles := Roles u |} in
          ret (claims, None)
      end
  end.

End Service.

(** The claims [Authenticate] builds for user [u] at instant [now]. *)
Definition issued (u : User) (now : time.Time) : auth.Claims :=
  {| auth.Standard :=
       {| jwt.Issuer := "service template";
          jwt.Subject := ID u;
          jwt.Audience := "clients";
          jwt.ExpiresAt := time.Unix (time.Add now time.Hour);
          jwt.IssuedAt := time.Unix now;
          jwt.Id := EmptyString;
          jwt.NotBefore := 0 |};
     auth.Roles := Roles u |}.

(** The user [Create] assembles for request [nur] at instant [now] in
    world [w]: the hash comes from the first random draw, the identifier
    from the second. *)
Definition assembled `{Collaborators}
           (nur : NewUserRequest.t) (now : time.Time) (w : World) : User :=
  {| ID := uuid_New (S (entropy w));
     Name := NewUserRequest.Name nur;
     LastName := NewUserRequest.LastName nur;
     Email := NewUserRequest.Email nur;
     Country := NewUserRequest.Country nur;
     PasswordHash :=
       fst (bcrypt_GenerateFromPassword (entropy w)
              (list_byte_of_string (NewUserRequest.Password nur)) bcrypt_DefaultCost);
     Roles := NewUserRequest.Roles nur;
     DateCreated := time.UTC now;
     DateUpdated := time.UTC now |}.

(** The number of rows with a given email, as COUNT reports it. *)
Definition count_email (email : string) (t : list User) : Z :=
  Z.of_nat (List.length (filter (fun u => String.eqb (Email u) email) t)).

(** ** Sample collaborators

    One concrete choice of collaborators, on which the operations can be
    run: identifiers are accepted in their canonical 36-character form, a
    hash is a salt byte followed by the password, and the driver never
    fails. *)

Definition is_hex (c : ascii) : bool :=
  let n := nat_of_ascii c in
  ((48 <=? n) && (n <=? 57) || (97 <=? n) && (n <=? 102) || (65 <=? n) && (n <=? 70))%nat.

Definition is_hyphen_position (i : nat) : bool :=
  (Nat.eqb i 8 || Nat.eqb i 13 || Nat.eqb i 18 || Nat.eqb i 23)%bool.

Fixpoint canonical_from (i : nat) (s : string) : bool :=
  match s with
  | EmptyString => Nat.eqb i 36
  | String c s' =>
      (if is_hyphen_position i then Ascii.eqb c "-" else is_hex c)
      && canonical_from (S i) s'
  end.

Definition demo_uuid_Parse (s : string) : option string :=
  if canonical_from 0 s then None else Some "invalid UUID format"%string.

Definition demo_digit (n : nat) : string :=
  String (ascii_of_nat (48 + Nat.modulo n 10)) EmptyString.

Definition demo_uuid_New (n : nat) : string :=
  ("0000000" ++ demo_digit n ++ "-0000-4000-8000-000000000000")%string.

Definition demo_salt (n : nat) : byte :=
  match Byte.of_nat (Nat.modulo n 256) with
  | Some b => b
  | None => x00
  end.

Definition demo_GenerateFromPassword (n : nat) (password : list byte) (cost : Z)
  : list byte * option string :=
  (demo_salt n :: password, None).

Definition demo_CompareHashAndPassword (hash password : list byte) : option string :=
  match hash with
  | [] => Some "hashedSecret too short to be a bcrypted password"%string
  | _ :: rest =>
      if list_eq_dec Byte.byte_eq_dec rest password then None
      else Some "hashedPassword is not the hash of the given password"%string
  end.

Definition demo : Collaborators := {|
  RoleAdmin := "ADMIN";
  uuid_Parse := demo_uuid_Parse;
  uuid_New := demo_uuid_New;
  bcrypt_GenerateFromPassword := demo_GenerateFromPassword;
  bcrypt_CompareHashAndPassword := demo_CompareHashAndPassword;
  driver_fault := fun _ _ => None
|}.

(** The same collaborators with the store out of reach: the driver fails
    every statement. *)
Definition offline : Collaborators := {|
  RoleAdmin := "ADMIN";
  uuid_Parse := demo_uuid_Parse;
  uuid_New := demo_uuid_New;
  bcrypt_GenerateFromPassword := demo_GenerateFromPassword;
  bcrypt_CompareHashAndPassword := demo_CompareHashAndPassword;
  driver_fault := fun _ _ => Some "connection refused"%string
|}.

Definition noon : time.Time :=
  time.mkTime (1700000000 + time.unixToInternal) 5 (time.Zone "CET" 3600).


Definition id_ana : string := "00000000-0000-4000-8000-00000000000a".
Definition id_bob : string := "00000000-0000-4000-8000-00000000000b".

Definition ana : User := {|
  ID := id_ana; Name := "Ana"; LastName := "Paz"; Email := "ana@example.com";
  Country := "AR"; PasswordHash := demo_salt 7 :: list_byte_of_string "ana-secret";
  Roles := ["ADMIN"%string; "USER"%string];
  DateCreated := time.UTC noon; DateUpdated := time.UTC noon |}.

Definition bob : User := {|
  ID := id_bob; Name := "Bob"; LastName := "Ruiz"; Email := "bob@example.com";
  Country := "UY"; PasswordHash := demo_salt 9 :: list_byte_of_string "bob-secret";
  Roles := ["USER"%string];
  DateCreated := time.UTC noon; DateUpdated := time.UTC noon |}.

Definition claims_of (u : User) : auth.Claims := {|
  auth.Standard :=
    {| jwt.Issuer := "service template"; jwt.Subject := ID u; jwt.Audience := "clients";
       jwt.ExpiresAt := 1700003600; jwt.IssuedAt := 1700000000;
       jwt.Id := EmptyString; jwt.NotBefore := 0 |};
  auth.Roles := Roles u |}.

Definition carla_request : NewUserRequest.t := {|
  NewUserRequest.Name := "Carla"; NewUserRequest.LastName := "Sosa";
  NewUserRequest.Email := "carla@example.com"; NewUserRequest.Country := "CL";
  NewUserRequest.Password := "carla-secret";
  NewUserRequest.Roles := ["USER"%string] |}.

(** The same request with no role at all. *)
Definition roleless_request : NewUserRequest.t := {|
  NewUserRequest.Name := "Carla"; NewUserRequest.LastName := "Sosa";
  NewUserRequest.Email := "carla@example.com"; NewUserRequest.Country := "CL";
  NewUserRequest.Password := "carla-secret";
  NewUserRequest.Roles := [] |}.

(** A request for an email that [bob] already uses. *)
Definition bob_again : NewUserRequest.t := {|
  NewUserRequest.Name := "Roberto"; NewUserRequest.LastName := "Ruiz";
  NewUserRequest.Email := "bob@example.com"; NewUserRequest.Country := "UY";
  NewUserRequest.Password := "another-secret";
  NewUserRequest.Roles := ["USER"%string] |}.

(** A request for Bob's email written in capitals. *)
Definition bob_in_capitals : NewUserRequest.t := {|
  NewUserRequest.Name := "Roberto"; NewUserRequest.LastName := "Ruiz";
  NewUserRequest.Email := "BOB@example.com"; NewUserRequest.Country := "UY";
  NewUserRequest.Password := "another-secret";
  NewUserRequest.Roles := ["USER"%string] |}.

(** Bob asks for the email that Ana already uses. *)
Definition bob_takes_anas_email : UpdateUserRequest.t := {|
  UpdateUserRequest.Name := "Bob"; UpdateUserRequest.LastName := "Ruiz";
  UpdateUserRequest.Email := "ana@example.com"; UpdateUserRequest.Country := "UY" |}.

Definition empty_world : World := mkWorld [] [] 0.
Definition two_users : World := mkWorld [bob; ana] [] 0.

(** ** Causes

    [errors.Cause]: the error at the bottom of a chain of wrappers. *)

Fixpoint Cause (e : error_value) : error_value :=
  match e with
  | Wrapf c _ _ => Cause c
  | _ => e
  end.

(** The statement [Update] sends for request [uur] at instant [now] on
    the row with identifier [id], and what it does to a row. *)
Definition update_statement (uur : UpdateUserRequest.t) (now : time.Time)
           (id : string) : Stmt :=
  UpdateUser (UpdateUserRequest.Name uur) (UpdateUserRequest.LastName uur)
             (UpdateUserRequest.Email uur) (UpdateUserRequest.Country uur)
             (time.UTC now) id.

Definition updated (uur : UpdateUserRequest.t) (now : time.Time)
           (u : User) : User :=
  set_profile (UpdateUserRequest.Name uur) (UpdateUserRequest.LastName uur)
              (UpdateUserRequest.Email uur) (UpdateUserRequest.Country uur)
              (time.UTC now) u.

(** A caller with the user role only, under an identifier of its own. *)
Definition id_eve : string := "00000000-0000-4000-8000-00000000000e".

Definition eve : User := {|
  ID := id_eve; Name := "Eve"; LastName := "Luna"; Email := "eve@example.com";
  Country := "PY"; PasswordHash := demo_salt 3 :: list_byte_of_string "eve-secret";
  Roles := ["USER"%string];
  DateCreated := time.UTC noon; DateUpdated := time.UTC noon |}.

Definition bob_renamed : UpdateUserRequest.t := {|
  UpdateUserRequest.Name := "Roberto"; UpdateUserRequest.LastName := "Ruiz";
  UpdateUserRequest.Email := "roberto@example.com"; UpdateUserRequest.Country := "AR" |}.

Definition later : time.Time := time.Add noon time.Hour.

(** Ana, stored after Bob, takes a new email that nobody uses. *)
Definition ana_renamed : UpdateUserRequest.t := {|
  UpdateUserRequest.Name := "Ana"; UpdateUserRequest.LastName := "Paz";
  UpdateUserRequest.Email := "ana.paz@example.com"; UpdateUserRequest.Country := "AR" |}.

(** ** The administration command

    The second source file is the entry point of the administration tool:
    [main] and [run].  [run] parses the configuration, prints it, and hands
    over to one of three commands; [main] turns [run]'s error into a log
    line and an exit status.  The configuration library and the commands
    are collaborators; what the program prints, logs and launches is
    recorded as a list of effects, oldest first. *)

Module admin.

Module database.
(** [database.Config], as the literal in [run] fills it. *)
Record Config : Type := mkConfig {
  User : string;
  Password : string;
  Host : string;
  Name : string;
  DisableTLS : bool
}.
End database.

Module settings.
(** The anonymous struct [cfg.DB]. *)
Record DB : Type := mkDB {
  User : string;
  Password : string;
  Host : string;
  Name : string;
  DisableTLS : bool
}.
End settings.

(** [conf.Version] *)
Record Version : Type := mkVersion {
  SVN : string;
  Desc : string
}.

(** The struct [cfg] of [run]. *)
Record Cfg : Type := mkCfg {
  version : Version;
  Args : list string;
  DB : settings.DB
}.

(** [cfg.Args.Num(i)]: the [i]-th argument, the empty string when there
    is none. *)
Definition Num (args : list string) (i : nat) : string := nth i args EmptyString.

(** Errors: the sentinel of package [commands], the two of package
    [conf], whatever else a collaborator raises, and the wrappers of
    [errors.Wrap]. *)
Inductive err : Type :=
| ErrHelp
| ErrHelpWanted
| ErrVersionWanted
| failure (msg : string)
| wrap (cause : err) (msg : string).

(** [errors.Cause] *)
Fixpoint Cause (e : err) : err :=
  match e with
  | wrap c _ => Cause c
  | _ => e
  end.

Definition is_ErrHelp (e : err) : bool :=
  match e with
  | ErrHelp => true
  | _ => false
  end.

Inductive Command : Type :=
| Migrate (c : database.Config)
| Seed (c : database.Config)
| GenKey.

Inductive Effect : Type :=
| Println (line : string)
| LogConfig (out : string)
| LogError (e : err)
| Ran (c : Command)
| Exit (code : Z).

(** What [run] calls and does not define: the value of [build], the
    configuration parser with its usage, version and printing functions,
    and the three commands, each answering with its error. *)
Class Tools : Type := {
  build : string;
  conf_Parse : list string -> string -> Cfg -> Cfg * option err;
  conf_Usage : string -> Cfg -> string * option err;
  conf_VersionString : string -> Cfg -> string * option err;
  conf_String : Cfg -> string * option err;
  commands_Migrate : database.Config -> option err;
  commands_Seed : database.Config -> option err;
  commands_GenKey : option err
}.

Definition prefix : string := "SERVICE".

Definition help_lines : list Effect :=
  [Println "migrate: create the schema in the database";
   Println "seed: add data to the database";
   Println "genkey: generate a set of private/public key files";
   Println "provide a command to get more help."].

Section Run.

Context `{Tools}.

(** [cfg] before parsing: the version is set, the rest is zero. *)
Definition initial_cfg : Cfg :=
  mkCfg (mkVersion build "copyright information here") []
        (settings.mkDB EmptyString EmptyString EmptyString EmptyString false).

Definition dbConfig (cfg : Cfg) : database.Config :=
  {| database.User := settings.User (DB cfg);
     database.Password := settings.Password (DB cfg);
     database.Host := settings.Host (DB cfg);
     database.Name := settings.Name (DB cfg);
     database.DisableTLS := settings.DisableTLS (DB cfg) |}.

(** [run], for the arguments [os.Args[1:]]: the effects and the error. *)
Definition run (args : list string) : list Effect * option err :=
  match conf_Parse args prefix initial_cfg with
  | (cfg, Some ErrHelpWanted) =>
      match conf_Usage prefix cfg with
      | (_, Some e) => ([], Some (wrap e "generating config usage"))
      | (usage, None) => ([Println usage], None)
      end
  | (cfg, Some ErrVersionWanted) =>
      match conf_VersionString prefix cfg with
      | (_, Some e) => ([], Some (wrap e "generating config version"))
      | (v, None) => ([Println v], None)
      end
  | (cfg, Some e) => ([], Some (wrap e "parsing config"))
  | (cfg, None) =>
      match conf_String cfg with
      | (_, Some e) => ([], Some (wrap e "generating config for output"))
      | (out, None) =>
          let command := Num (Args cfg) 0 in
          if String.eqb command "migrate" then
            match commands_Migrate (dbConfig cfg) with
            | Some e =>
                ([LogConfig out; Ran (Migrate (dbConfig cfg))],
                 Some (wrap e "migrating database"))
            | None => ([LogConfig out; Ran (Migrate (dbConfig cfg))], None)
            end
          else if String.eqb command "seed" then
            match commands_Seed (dbConfig cfg) with
            | Some e =>
                ([LogConfig out; Ran (Seed (dbConfig cfg))],
                 Some (wrap e "seeding database"))
            | None => ([LogConfig out; Ran (Seed (dbConfig cfg))], None)
            end
          else if String.eqb command "genkey" then
            match commands_GenKey with
            | Some e => ([LogConfig out; Ran GenKey], Some (wrap e "key generation"))
            | None => ([LogConfig out; Ran GenKey], None)
            end
          else (LogConfig out :: help_lines, Some ErrHelp)
      end
  end.

(** [main]: the effects of [run], then, on an error, a log line unless
    the cause is [ErrHelp], and exit status 1. *)
Definition main (args : list string) : list Effect :=
  match run args with
  | (effects, Some e) =>
      effects
      ++ (if is_ErrHelp (Cause e) then [] else [LogError e])
      ++ [Exit 1]
  | (effects, None) => effects
  end.

End Run.

(** The commands launched, among some effects. *)
Definition launched (effects : list Effect) : list Command :=
  flat_map (fun x => match x with Ran c => [c] | _ => [] end) effects.

(** Sample tools: the parser keeps the arguments that do not start with a
    dash and recognises [--help] and [--version]; the commands succeed,
    except seeding, which fails. *)
Definition is_flag (s : string) : bool :=
  match s with
  | String "-" _ => true
  | _ => false
  end.

Definition demo_Parse (args : list string) (p : string) (cfg : Cfg) : Cfg * option err :=
  let cfg' := mkCfg (version cfg) (filter (fun a => negb (is_flag a)) args)
                    (settings.mkDB "postgres" "postgres" "0.0.0.0" "postgres" true) in
  if existsb (String.eqb "--help") args then (cfg', Some ErrHelpWanted)
  else if existsb (String.eqb "--version") args then (cfg', Some ErrVersionWanted)
  else if existsb is_flag args then (cfg', Some (failure "unknown flag"))
  else (cfg', None).

Definition demo_tools : Tools := {|
  build := "develop";
  conf_Parse := demo_Parse;
  conf_Usage := fun p _ => (("Usage: " ++ p)%string, None);
  conf_VersionString := fun p cfg => (SVN (version cfg), None);
  conf_String := fun cfg => ("--db-user=postgres"%string, None);
  commands_Migrate := fun _ => None;
  commands_Seed := fun _ => Some (failure "connection refused");
  commands_GenKey := None
|}.

End admin.

(** * Properties *)

(** ** Machine integers *)

Lemma int_wrap_small (z : Z) : is_int z -> int_wrap z = z.
Proof.
  unfold is_int, int_min, int_max, int_wrap.
  change (2 ^ 63) with 9223372036854775808.
  change (2 ^ 64) with 18446744073709551616.
  intros Hz. rewrite Z.mod_small; lia.
Qed.

(** ** The authorization guard *)

Section Guard.

Context `{Collaborators}.

Lemma Authorized_single (c : auth.Claims) (r : string) :
  auth.Authorized c [r] = true <-> In r (auth.Roles c).
Proof.
  unfold auth.Authorized. rewrite existsb_exists. split.
  - intros [has [Hin Hex]]. simpl in Hex. rewrite orb_false_r in Hex.
    apply String.eqb_eq in Hex. now subst.
  - intros Hin. exists r. split; [assumption|].
    simpl. now rewrite String.eqb_refl.
Qed.

(** The condition under which [GetByID] and [Delete] refuse the caller. *)
Lemma guard_true_iff (claims : auth.Claims) (userID : string) :
  negb (auth.Authorized claims [RoleAdmin])
  && negb (String.eqb (auth.Subject claims) userID) = true
  <-> ~ In RoleAdmin (auth.Roles claims) /\ auth.Subject claims <> userID.
Proof.
  rewrite andb_true_iff, !negb_true_iff, String.eqb_neq.
  rewrite <- Authorized_single.
  destruct (auth.Authorized claims [RoleAdmin]); intuition congruence.
Qed.

Lemma guard_false_iff (claims : auth.Claims) (userID : string) :
  negb (auth.Authorized claims [RoleAdmin])
  && negb (String.eqb (auth.Subject claims) userID) = false
  <-> In RoleAdmin (auth.Roles claims) \/ auth.Subject claims = userID.
Proof.
  rewrite andb_false_iff, !negb_false_iff, String.eqb_eq.
  now rewrite Authorized_single.
Qed.

End Guard.

(** ** What each operation does, case by case *)

Section Runs.

Context `{Collaborators}.

Lemma db_get_run (s : Stmt) (matches : User -> bool) (w : World) :
  db_get s matches w =
  match driver_fault (table w) s with
  | Some m => ((zeroUser, Some (library_error m)), logged s w)
  | None =>
      match find matches (table w) with
      | Some u => ((u, None), logged s w)
      | None => ((zeroUser, Some sql_ErrNoRows), logged s w)
      end
  end.
Proof.
  unfold db_get, bind, send, get_table, ret.
  destruct (driver_fault (table w) s); [reflexivity|].
  simpl. destruct (find matches (table w)); reflexivity.
Qed.

Lemma GetByID_run (claims : auth.Claims) (userID : string) (w : World) :
  GetByID claims userID w =
  match uuid_Parse userID with
  | Some _ => ((zeroUser, Some ErrInvalidID), w)
  | None =>
      if negb (auth.Authorized claims [RoleAdmin])
         && negb (String.eqb (auth.Subject claims) userID)
      then ((zeroUser, Some ErrForbidden), w)
      else
        match driver_fault (table w) (SelectByID userID) with
        | Some m =>
            ((zeroUser, Some (Wrapf (library_error m) "selecting user %q" [userID])),
             logged (SelectByID userID) w)
        | None =>
            match find (fun u => String.eqb (ID u) userID) (table w) with
            | Some u => ((u, None), logged (SelectByID userID) w)
            | None => ((zeroUser, Some ErrNotFound), logged (SelectByID userID) w)
            end
        end
  end.
Proof.
  unfold GetByID.
  destruct (uuid_Parse userID); [reflexivity|].
  destruct (negb _ && negb _); [reflexivity|].
  unfold bind, db_get_by_id. rewrite db_get_run.
  destruct (driver_fault (table w) (SelectByID userID)); [reflexivity|].
  destruct (find _ (table w)); reflexivity.
Qed.

Lemma Delete_run (claims : auth.Claims) (userID : string) (w : World) :
  Delete claims userID w =
  match uuid_Parse userID with
  | Some _ => (Some ErrInvalidID, w)
  | None =>
      if negb (auth.Authorized claims [RoleAdmin])
         && negb (String.eqb (auth.Subject claims) userID)
      then (Some ErrForbidden, w)
      else
        match driver_fault (table w) (DeleteUser userID) with
        | Some m =>
            (Some (Wrapf (library_error m) "deleting user %s" [userID]),
             logged (DeleteUser userID) w)
        | None =>
            (None,
             mkWorld (filter (fun u => negb (String.eqb (ID u) userID)) (table w))
                     (journal w ++ [DeleteUser userID]) (entropy w))
        end
  end.
Proof.
  unfold Delete.
  destruct (uuid_Parse userID); [reflexivity|].
  destruct (negb _ && negb _); [reflexivity|].
  unfold bind, db_delete, bind, send, get_table, set_table, ret.
  destruct (driver_fault (table w) (DeleteUser userID)); reflexivity.
Qed.

(** [Update] hands on whatever error [GetByID] reports. *)
Lemma Update_refused (claims : auth.Claims) (userID : string)
      (uur : UpdateUserRequest.t) (now : time.Time) (w : World) :
  forall u e w',
    GetByID claims userID w = ((u, Some e), w') ->
    Update claims userID uur now w = ((zeroUser, Some e), w').
Proof.
  intros u e w' Hget. unfold Update, bind. now rewrite Hget.
Qed.

Lemma Update_fetched (claims : auth.Claims) (userID : string)
      (uur : UpdateUserRequest.t) (now : time.Time) (w : World) :
  forall u w',
    GetByID claims userID w = ((u, None), w') ->
    let u' := set_profile (UpdateUserRequest.Name uur) (UpdateUserRequest.LastName uur)
                          (UpdateUserRequest.Email uur) (UpdateUserRequest.Country uur)
                          (time.UTC now) u in
    let s := UpdateUser (UpdateUserRequest.Name uur) (UpdateUserRequest.LastName uur)
                        (UpdateUserRequest.Email uur) (UpdateUserRequest.Country uur)
                        (time.UTC now) (ID u) in
    Update claims userID uur now w =
    match driver_fault (table w') s with
    | Some m => ((zeroUser, Some (Wrap (library_error m) "updating user")), logged s w')
    | None =>
        ((u', None),
         mkWorld (map (fun v => if String.eqb (ID v) (ID u)
                                then set_profile (UpdateUserRequest.Name uur)
                                                 (UpdateUserRequest.LastName uur)
                                                 (UpdateUserRequest.Email uur)
                                                 (UpdateUserRequest.Country uur)
                                                 (time.UTC now) v
                                else v) (table w'))
                 (journal w' ++ [s]) (entropy w'))
    end.
Proof.
  intros u w' Hget u' s. unfold Update, bind at 1. rewrite Hget.
  unfold db_update, bind, send, get_table, set_table, ret. simpl.
  fold s. destruct (driver_fault (table w') s); reflexivity.
Qed.

End Runs.

(** ** Authorization (claim C1) *)

Lemma GetByID_forbidden_iff `{Collaborators}
      (claims : auth.Claims) (userID : string) (w : World) :
  uuid_Parse userID = None ->
  (snd (fst (GetByID claims userID w)) = Some ErrForbidden
   <-> negb (auth.Authorized claims [RoleAdmin])
       && negb (String.eqb (auth.Subject claims) userID) = true).
Proof.
  intros Hid. rewrite GetByID_run, Hid.
  destruct (negb _ && negb _).
  - simpl. tauto.
  - destruct (driver_fault (table w) (SelectByID userID)); simpl.
    + split; discriminate.
    + destruct (find _ (table w)); simpl; split; discriminate.
Qed.

Lemma Delete_forbidden_iff `{Collaborators}
      (claims : auth.Claims) (userID : string) (w : World) :
  uuid_Parse userID = None ->
  (fst (Delete claims userID w) = Some ErrForbidden
   <-> negb (auth.Authorized claims [RoleAdmin])
       && negb (String.eqb (auth.Subject claims) userID) = true).
Proof.
  intros Hid. rewrite Delete_run, Hid.
  destruct (negb _ && negb _).
  - simpl. tauto.
  - destruct (driver_fault (table w) (DeleteUser userID)); simpl; split; discriminate.
Qed.

(** [Update] is refused exactly when its call to [GetByID] is. *)
Lemma Update_forbidden_iff `{Collaborators}
      (claims : auth.Claims) (userID : string)
      (uur : UpdateUserRequest.t) (now : time.Time) (w : World) :
  snd (fst (Update claims userID uur now w)) = Some ErrForbidden
  <-> snd (fst (GetByID claims userID w)) = Some ErrForbidden.
Proof.
  destruct (GetByID claims userID w) as [[u [e|]] w'] eqn:Hget.
  - rewrite (Update_refused _ _ _ _ _ _ _ _ Hget). simpl. tauto.
  - rewrite (Update_fetched _ _ _ _ _ _ _ Hget). simpl.
    destruct (driver_fault _ _); simpl; split; discriminate.
Qed.

(** C1.  For a syntactically valid target identifier, [GetByID], [Delete]
    and [Update] answer [ErrForbidden] if and only if the caller's roles do
    not contain the admin role and the caller's subject differs from the
    target.  Hence a caller with the admin role is never refused, whatever
    its subject, and neither is a caller acting on its own identifier. *)
Theorem C1_forbidden_iff_neither_admin_nor_self `{Collaborators}
        (claims : auth.Claims) (userID : string)
        (uur : UpdateUserRequest.t) (now : time.Time) (w : World) :
  uuid_Parse userID = None ->
  let refused :=
    ~ In RoleAdmin (auth.Roles claims) /\ auth.Subject claims <> userID in
  let allowed :=
    snd (fst (GetByID claims userID w)) <> Some ErrForbidden
    /\ fst (Delete claims userID w) <> Some ErrForbidden
    /\ snd (fst (Update claims userID uur now w)) <> Some ErrForbidden in
  (snd (fst (GetByID claims userID w)) = Some ErrForbidden <-> refused)
  /\ (fst (Delete claims userID w) = Some ErrForbidden <-> refused)
  /\ (snd (fst (Update claims userID uur now w)) = Some ErrForbidden <-> refused)
  /\ (In RoleAdmin (auth.Roles claims) -> allowed)
  /\ (auth.Subject claims = userID -> allowed).
Proof.
  intros Hid refused allowed.
  assert (Hg : snd (fst (GetByID claims userID w)) = Some ErrForbidden <-> refused).
  { rewrite (GetByID_forbidden_iff _ _ _ Hid). apply guard_true_iff. }
  assert (Hd : fst (Delete claims userID w) = Some ErrForbidden <-> refused).
  { rewrite (Delete_forbidden_iff _ _ _ Hid). apply guard_true_iff. }
  assert (Hu : snd (fst (Update claims userID uur now w)) = Some ErrForbidden <-> refused).
  { rewrite Update_forbidden_iff. exact Hg. }
  assert (Hall : ~ refused -> allowed).
  { intros Hn. unfold allowed. rewrite Hg, Hd, Hu. tauto. }
  split; [exact Hg|]. split; [exact Hd|]. split; [exact Hu|]. split.
  - intros Hadmin. apply Hall. unfold refused. tauto.
  - intros Hself. apply Hall. unfold refused. tauto.
Qed.

Lemma C1_witness :
  snd (fst (@GetByID demo (claims_of bob) id_ana two_users)) = Some ErrForbidden
  <-> ~ In (@RoleAdmin demo) (auth.Roles (claims_of bob))
      /\ auth.Subject (claims_of bob) <> id_ana.
Proof.
  exact (proj1 (@C1_forbidden_iff_neither_admin_nor_self demo (claims_of bob) id_ana
                  (UpdateUserRequest.mk "Bob" "Ruiz" "bob@example.org" "UY")
                  noon two_users eq_refl)).
Defined.

(** ** Malformed identifiers (claim C6) *)

(** C6.  For an identifier that does not parse, [GetByID] and [Delete]
    answer [ErrInvalidID] whatever the caller's claims, and leave the world
    as it was: no statement has been sent to the store, and the
    authorization guard has not been consulted. *)
Theorem C6_invalid_id_before_store `{Collaborators}
        (claims : auth.Claims) (userID : string) (w : World) :
  uuid_Parse userID <> None ->
  GetByID claims userID w = ((zeroUser, Some ErrInvalidID), w)
  /\ Delete claims userID w = (Some ErrInvalidID, w).
Proof.
  intros Hbad. rewrite GetByID_run, Delete_run.
  destruct (uuid_Parse userID) as [m|]; [|congruence].
  split; reflexivity.
Qed.

Lemma C6_witness :
  @GetByID demo (claims_of ana) "not-an-identifier" two_users
  = ((zeroUser, Some ErrInvalidID), two_users)
  /\ @Delete demo (claims_of ana) "not-an-identifier" two_users
     = (Some ErrInvalidID, two_users).
Proof.
  apply (@C6_invalid_id_before_store demo (claims_of ana) "not-an-identifier" two_users).
  vm_compute. discriminate.
Defined.

(** ** Authentication (claims C2 and C3) *)

Lemma find_absent {A : Type} (f : A -> bool) (l : list A) :
  (forall x, In x l -> f x = false) -> find f l = None.
Proof.
  induction l as [|a l IH]; intros Hall; [reflexivity|].
  simpl. rewrite (Hall a (or_introl eq_refl)).
  apply IH. intros x Hx. apply Hall. now right.
Qed.

Lemma getByEmail_run `{Collaborators} (email : string) (w : World) :
  getByEmail email w =
  match driver_fault (table w) (SelectByEmail email) with
  | Some m =>
      ((zeroUser, Some (Wrapf (library_error m) "selecting user %q" [email])),
       logged (SelectByEmail email) w)
  | None =>
      match find (fun u => String.eqb (Email u) email) (table w) with
      | Some u => ((u, None), logged (SelectByEmail email) w)
      | None => ((zeroUser, Some ErrNotFound), logged (SelectByEmail email) w)
      end
  end.
Proof.
  unfold getByEmail, bind, db_get_by_email. rewrite db_get_run.
  destruct (driver_fault (table w) (SelectByEmail email)); [reflexivity|].
  destruct (find _ (table w)); reflexivity.
Qed.

Lemma Authenticate_run `{Collaborators}
      (now : time.Time) (email password : string) (w : World) :
  Authenticate now email password w =
  match driver_fault (table w) (SelectByEmail email) with
  | Some m =>
      ((auth.zero,
        Some (Wrap (Wrapf (library_error m) "selecting user %q" [email])
                   "selecting single user")),
       logged (SelectByEmail email) w)
  | None =>
      match find (fun u => String.eqb (Email u) email) (table w) with
      | None => ((auth.zero, Some ErrAuthenticationFailure), logged (SelectByEmail email) w)
      | Some u =>
          match bcrypt_CompareHashAndPassword (PasswordHash u)
                                              (list_byte_of_string password) with
          | Some _ =>
              ((auth.zero, Some ErrAuthenticationFailure), logged (SelectByEmail email) w)
          | None => ((issued u now, None), logged (SelectByEmail email) w)
          end
      end
  end.
Proof.
  unfold Authenticate, bind. rewrite getByEmail_run.
  destruct (driver_fault (table w) (SelectByEmail email)); [reflexivity|].
  destruct (find _ (table w)) as [u|]; [|reflexivity].
  destruct (bcrypt_CompareHashAndPassword _ _); reflexivity.
Qed.

(** Whatever the store and the hash comparison answer, [Authenticate]
    never reports [ErrNotFound]. *)
Lemma Authenticate_never_NotFound `{Collaborators}
      (now : time.Time) (email password : string) (w : World) :
  snd (fst (Authenticate now email password w)) <> Some ErrNotFound.
Proof.
  rewrite Authenticate_run.
  destruct (driver_fault _ _); [discriminate|].
  destruct (find _ _); [|discriminate].
  destruct (bcrypt_CompareHashAndPassword _ _); discriminate.
Qed.

(** C2.  When the store answers the lookup by email, and either no row
    has that email, or the row found has a hash against which the password
    does not verify, [Authenticate] returns the zero claims with exactly
    [ErrAuthenticationFailure], never [ErrNotFound]: the two cases give the
    same answer. *)
Theorem C2_authentication_failure_hides_cause `{Collaborators}
        (now : time.Time) (email password : string) (w : World) :
  driver_fault (table w) (SelectByEmail email) = None ->
  (forall u, In u (table w) -> Email u <> email)
  \/ (exists u,
        find (fun u => String.eqb (Email u) email) (table w) = Some u
        /\ bcrypt_CompareHashAndPassword (PasswordHash u)
                                         (list_byte_of_string password) <> None) ->
  fst (Authenticate now email password w) = (auth.zero, Some ErrAuthenticationFailure)
  /\ snd (fst (Authenticate now email password w)) <> Some ErrNotFound.
Proof.
  intros Hok Hcase. split; [|apply Authenticate_never_NotFound].
  rewrite Authenticate_run, Hok.
  destruct Hcase as [Habsent | [u [Hfind Hbad]]].
  - rewrite find_absent; [reflexivity|].
    intros u Hu. apply String.eqb_neq. now apply Habsent.
  - rewrite Hfind.
    destruct (bcrypt_CompareHashAndPassword _ _); [reflexivity|congruence].
Qed.

Lemma C2_witness :
  (fst (@Authenticate demo noon "nobody@example.com" "secret" two_users)
   = (auth.zero, Some ErrAuthenticationFailure)
   /\ snd (fst (@Authenticate demo noon "nobody@example.com" "secret" two_users))
      <> Some ErrNotFound)
  /\ (fst (@Authenticate demo noon "bob@example.com" "wrong" two_users)
      = (auth.zero, Some ErrAuthenticationFailure)
      /\ snd (fst (@Authenticate demo noon "bob@example.com" "wrong" two_users))
         <> Some ErrNotFound).
Proof.
  split.
  - apply (@C2_authentication_failure_hides_cause demo); [reflexivity|].
    left. intros u [Hu | [Hu | []]]; subst u; vm_compute; discriminate.
  - apply (@C2_authentication_failure_hides_cause demo); [reflexivity|].
    right. exists bob. split; [reflexivity|]. vm_compute. discriminate.
Defined.

(** With the store out of reach the failure is neither of the two: it
    comes back wrapped, with its cause. *)
Example Authenticate_store_out_of_reach :
  fst (@Authenticate offline noon "bob@example.com" "bob-secret" two_users)
  = (auth.zero,
     Some (Wrap (Wrapf (library_error "connection refused")
                       "selecting user %q" ["bob@example.com"%string])
                "selecting single user")).
Proof. reflexivity. Qed.










(** ** Creation (claims C4, C5 and C9) *)

Lemma Create_run `{Collaborators}
      (nur : NewUserRequest.t) (now : time.Time) (w : World) :
  let email := NewUserRequest.Email nur in
  let u := assembled nur now w in
  Create nur now w =
  match driver_fault (table w) (CountByEmail email) with
  | Some m =>
      ((zeroUser, Some (Wrapf (library_error m) "looking for users with the email %s" [email])),
       logged (CountByEmail email) w)
  | None =>
      if negb (count_email email (table w) =? 0)
      then ((zeroUser, Some ErrDuplicatedEmail), logged (CountByEmail email) w)
      else
        match snd (bcrypt_GenerateFromPassword (entropy w)
                     (list_byte_of_string (NewUserRequest.Password nur))
                     bcrypt_DefaultCost) with
        | Some m =>
            ((zeroUser, Some (Wrap (library_error m) "generating password hash")),
             mkWorld (table w) (journal w ++ [CountByEmail email]) (S (entropy w)))
        | None =>
            match driver_fault (table w) (InsertUser u) with
            | Some m =>
                ((zeroUser, Some (Wrap (library_error m) "inserting user")),
                 mkWorld (table w) (journal w ++ [CountByEmail email; InsertUser u])
                         (S (S (entropy w))))
            | None =>
                ((u, None),
                 mkWorld (table w ++ [u]) (journal w ++ [CountByEmail email; InsertUser u])
                         (S (S (entropy w))))
            end
        end
  end.
Proof.
  intros email u. unfold Create, bind at 1. fold email.
  unfold db_count_by_email, bind, send, get_table, ret.
  destruct (driver_fault (table w) (CountByEmail email)); [reflexivity|].
  cbn [logged table]. fold (count_email email (table w)).
  destruct (negb (count_email email (table w) =? 0)); [reflexivity|].
  unfold GenerateFromPassword, uuid_New_String, db_insert, bind, draw, send,
    get_table, set_table, ret.
  cbn [logged table journal entropy].
  unfold u, assembled.
  destruct (bcrypt_GenerateFromPassword _ _ _) as [h [m|]]; cbn [fst snd]; [reflexivity|].
  cbn [logged table journal entropy].
  destruct (driver_fault (table w) _);
    unfold logged; cbn [table journal entropy]; rewrite <- app_assoc; reflexivity.
Qed.

Lemma count_email_positive (email : string) (t : list User) :
  (exists u, In u t /\ Email u = email) -> count_email email t <> 0.
Proof.
  intros [u [Hin Heq]]. unfold count_email.
  assert (Hf : In u (filter (fun v => String.eqb (Email v) email) t)).
  { apply filter_In. split; [assumption|]. now apply String.eqb_eq. }
  destruct (filter _ t); [contradiction|]. simpl. lia.
Qed.

Lemma count_email_zero (email : string) (t : list User) :
  (forall u, In u t -> Email u <> email) -> count_email email t = 0.
Proof.
  intros Hall. unfold count_email.
  destruct (filter _ t) as [|v l] eqn:Hf; [reflexivity|].
  assert (Hv : In v (filter (fun u => String.eqb (Email u) email) t))
    by (rewrite Hf; now left).
  apply filter_In in Hv. destruct Hv as [Hin Heq].
  apply String.eqb_eq in Heq. now elim (Hall v Hin).
Qed.

(** When the email is free, the hash is generated and the driver lets
    both statements through, [Create] returns the assembled user and the
    table has gained exactly that row. *)
Lemma Create_succeeds `{Collaborators}
      (nur : NewUserRequest.t) (now : time.Time) (w : World) :
  let email := NewUserRequest.Email nur in
  let u := assembled nur now w in
  driver_fault (table w) (CountByEmail email) = None ->
  (forall v, In v (table w) -> Email v <> email) ->
  snd (bcrypt_GenerateFromPassword (entropy w)
         (list_byte_of_string (NewUserRequest.Password nur)) bcrypt_DefaultCost) = None ->
  driver_fault (table w) (InsertUser u) = None ->
  Create nur now w =
  ((u, None),
   mkWorld (table w ++ [u]) (journal w ++ [CountByEmail email; InsertUser u])
           (S (S (entropy w)))).
Proof.
  intros email u Hcount Hfree Hhash Hins.
  pose proof (Create_run nur now w) as Hrun. cbv zeta in Hrun. rewrite Hrun.
  fold email. fold u. rewrite Hcount, (count_email_zero _ _ Hfree), Hhash, Hins.
  reflexivity.
Qed.

(** A [Create] that reports no error has returned the assembled user and
    appended it to the table, after a count and an insert. *)
Lemma Create_success_inv `{Collaborators}
      (nur : NewUserRequest.t) (now : time.Time) (w w' : World) (u : User) :
  Create nur now w = ((u, None), w') ->
  u = assembled nur now w
  /\ w' = mkWorld (table w ++ [u])
                  (journal w ++ [CountByEmail (NewUserRequest.Email nur); InsertUser u])
                  (S (S (entropy w))).
Proof.
  pose proof (Create_run nur now w) as Hrun. cbv zeta in Hrun. rewrite Hrun.
  destruct (driver_fault (table w) (CountByEmail _)); [discriminate|].
  destruct (negb _); [discriminate|].
  destruct (snd (bcrypt_GenerateFromPassword _ _ _)); [discriminate|].
  destruct (driver_fault (table w) (InsertUser _)); [discriminate|].
  intros Heq. injection Heq as Hu Hw. subst u. split; [reflexivity|]. now subst w'.
Qed.

(** C4.  When the request's email is, character for character, the email
    of some row of the table, [Create] sends the count statement and
    nothing else: the rows are unchanged, no insert reaches the store and no
    random draw is made; and, the store having answered the count, the
    error is [ErrDuplicatedEmail]. *)
Theorem C4_duplicated_email_no_insert `{Collaborators}
        (nur : NewUserRequest.t) (now : time.Time) (w : World) :
  (exists u, In u (table w) /\ Email u = NewUserRequest.Email nur) ->
  snd (Create nur now w) = logged (CountByEmail (NewUserRequest.Email nur)) w
  /\ table (snd (Create nur now w)) = table w
  /\ (forall u, In (InsertUser u) (journal (snd (Create nur now w))) ->
                In (InsertUser u) (journal w))
  /\ (driver_fault (table w) (CountByEmail (NewUserRequest.Email nur)) = None ->
      fst (Create nur now w) = (zeroUser, Some ErrDuplicatedEmail)).
Proof.
  intros Hdup. apply count_email_positive in Hdup. apply Z.eqb_neq in Hdup.
  pose proof (Create_run nur now w) as Hrun. cbv zeta in Hrun.
  assert (Hw : snd (Create nur now w) = logged (CountByEmail (NewUserRequest.Email nur)) w).
  { rewrite Hrun. destruct (driver_fault (table w) (CountByEmail _)); [reflexivity|].
    rewrite Hdup. reflexivity. }
  split; [exact Hw|]. rewrite Hw. split; [reflexivity|]. split.
  - intros u Hin. cbn [logged journal] in Hin.
    apply in_app_or in Hin. destruct Hin as [Hin | [Hin | []]];
      [assumption | discriminate].
  - intros Hok. rewrite Hrun, Hok, Hdup. reflexivity.
Qed.

Lemma C4_witness :
  snd (@Create demo bob_again noon two_users)
  = logged (CountByEmail "bob@example.com") two_users
  /\ table (snd (@Create demo bob_again noon two_users)) = table two_users
  /\ (forall u, In (InsertUser u) (journal (snd (@Create demo bob_again noon two_users))) ->
                In (InsertUser u) (journal two_users))
  /\ (@driver_fault demo (table two_users) (CountByEmail "bob@example.com") = None ->
      fst (@Create demo bob_again noon two_users) = (zeroUser, Some ErrDuplicatedEmail)).
Proof.
  apply (@C4_duplicated_email_no_insert demo bob_again noon two_users).
  exists bob. split; [now left | reflexivity].
Defined.

(** The comparison of emails is exact: Bob's email in capitals is another
    email, and the request goes through. *)
Example Create_email_in_capitals :
  snd (fst (@Create demo bob_in_capitals noon two_users)) = None
  /\ List.length (table (snd (@Create demo bob_in_capitals noon two_users))) = 3%nat.
Proof. split; reflexivity. Qed.

(** C5.  The user that a successful [Create] returns carries, in
    [PasswordHash], the hash generated for the request's password: the
    same value that was sent to the store in the insert and now sits in the
    table.  [Create] strips nothing from what it returns. *)
Theorem C5_created_user_carries_hash `{Collaborators}
        (nur : NewUserRequest.t) (now : time.Time) (w w' : World) (u : User) :
  Create nur now w = ((u, None), w') ->
  PasswordHash u
  = fst (bcrypt_GenerateFromPassword (entropy w)
           (list_byte_of_string (NewUserRequest.Password nur)) bcrypt_DefaultCost)
  /\ In (InsertUser u) (journal w')
  /\ In u (table w').
Proof.
  intros Hrun. apply Create_success_inv in Hrun. destruct Hrun as [Hu Hw].
  split; [now subst u|]. subst w'. cbn [journal table]. split.
  - apply in_or_app. right. right. now left.
  - apply in_or_app. right. now left.
Qed.

Lemma C5_witness :
  PasswordHash (assembled (H := demo) carla_request noon two_users)
  = fst (@bcrypt_GenerateFromPassword demo (entropy two_users)
           (list_byte_of_string (NewUserRequest.Password carla_request))
           bcrypt_DefaultCost)
  /\ In (InsertUser (assembled (H := demo) carla_request noon two_users))
        (journal (snd (@Create demo carla_request noon two_users)))
  /\ In (assembled (H := demo) carla_request noon two_users)
        (table (snd (@Create demo carla_request noon two_users))).
Proof.
  apply (@C5_created_user_carries_hash demo carla_request noon two_users).
  reflexivity.
Defined.

(** C5, as first stated, fails: on the sample collaborators, creating
    Carla succeeds and the user handed back carries the generated hash, the
    salt byte followed by the bytes of her password. *)
Lemma C5_counterexample :
  snd (fst (@Create demo carla_request noon two_users)) = None
  /\ PasswordHash (fst (fst (@Create demo carla_request noon two_users)))
     = fst (@bcrypt_GenerateFromPassword demo 0
              (list_byte_of_string "carla-secret") bcrypt_DefaultCost)
  /\ PasswordHash (fst (fst (@Create demo carla_request noon two_users))) <> [].
Proof.
  split; [reflexivity|]. split; [reflexivity|]. vm_compute. discriminate.
Qed.

(** ** Roles (claim C9) *)

Lemma GetByID_table `{Collaborators}
      (claims : auth.Claims) (userID : string) (w : World) :
  table (snd (GetByID claims userID w)) = table w.
Proof.
  rewrite GetByID_run.
  destruct (uuid_Parse userID); [reflexivity|].
  destruct (negb _ && negb _); [reflexivity|].
  destruct (driver_fault _ _); [reflexivity|].
  destruct (find _ _); reflexivity.
Qed.

(** [Update] leaves the rows alone or rewrites the profile of some. *)
Lemma Update_table `{Collaborators}
      (claims : auth.Claims) (userID : string)
      (uur : UpdateUserRequest.t) (now : time.Time) (w : World) :
  table (snd (Update claims userID uur now w)) = table w
  \/ exists id,
      table (snd (Update claims userID uur now w))
      = map (fun v => if String.eqb (ID v) id
                      then set_profile (UpdateUserRequest.Name uur)
                                       (UpdateUserRequest.LastName uur)
                                       (UpdateUserRequest.Email uur)
                                       (UpdateUserRequest.Country uur)
                                       (time.UTC now) v
                      else v) (table w).
Proof.
  pose proof (GetByID_table claims userID w) as Ht.
  destruct (GetByID claims userID w) as [[u [e|]] w'] eqn:Hget; cbn [snd] in Ht.
  - left. rewrite (Update_refused _ _ _ _ _ _ _ _ Hget). exact Ht.
  - rewrite (Update_fetched _ _ _ _ _ _ _ Hget).
    destruct (driver_fault _ _).
    + left. exact Ht.
    + right. exists (ID u). cbn [snd table]. now rewrite Ht.
Qed.

Lemma Delete_table `{Collaborators}
      (claims : auth.Claims) (userID : string) (w : World) :
  table (snd (Delete claims userID w)) = table w
  \/ table (snd (Delete claims userID w))
     = filter (fun u => negb (String.eqb (ID u) userID)) (table w).
Proof.
  rewrite Delete_run.
  destruct (uuid_Parse userID); [now left|].
  destruct (negb _ && negb _); [now left|].
  destruct (driver_fault _ _); [now left | now right].
Qed.

Lemma Create_table `{Collaborators}
      (nur : NewUserRequest.t) (now : time.Time) (w : World) :
  table (snd (Create nur now w)) = table w
  \/ table (snd (Create nur now w)) = table w ++ [assembled nur now w].
Proof.
  pose proof (Create_run nur now w) as Hrun. cbv zeta in Hrun. rewrite Hrun.
  destruct (driver_fault (table w) (CountByEmail _)); [now left|].
  destruct (negb _); [now left|].
  destruct (snd (bcrypt_GenerateFromPassword _ _ _)); [now left|].
  destruct (driver_fault (table w) (InsertUser _)); [now left | now right].
Qed.

(** C9.  The user that [Create] returns and inserts has exactly the roles
    of the request, whatever they are: they are non-empty exactly when the
    request names a role, for [Create] rejects no request for its roles.
    And if every row of the table has non-empty roles, this is still so
    after [Update], after [Delete], and after [Create] with a request that
    names at least one role. *)
Theorem C9_roles_come_from_request `{Collaborators}
        (nur : NewUserRequest.t) (now : time.Time) (w : World) :
  (forall u w', Create nur now w = ((u, None), w') ->
                Roles u = NewUserRequest.Roles nur
                /\ table w' = table w ++ [u]
                /\ (Roles u <> [] <-> NewUserRequest.Roles nur <> []))
  /\ (Forall (fun u => Roles u <> []) (table w) ->
      (NewUserRequest.Roles nur <> [] ->
       Forall (fun u => Roles u <> []) (table (snd (Create nur now w))))
      /\ (forall claims userID uur,
            Forall (fun u => Roles u <> []) (table (snd (Update claims userID uur now w))))
      /\ (forall claims userID,
            Forall (fun u => Roles u <> []) (table (snd (Delete claims userID w))))).
Proof.
  split.
  - intros u w' Hrun. apply Create_success_inv in Hrun. destruct Hrun as [Hu Hw].
    subst u. split; [reflexivity|]. split; [now subst w'|]. reflexivity.
  - intros Hinv. split; [|split].
    + intros Hroles.
      destruct (Create_table nur now w) as [Ht | Ht]; rewrite Ht; [assumption|].
      apply Forall_app. split; [assumption|]. constructor; [assumption | constructor].
    + intros claims userID uur.
      destruct (Update_table claims userID uur now w) as [Ht | [id Ht]]; rewrite Ht;
        [assumption|].
      apply Forall_map. eapply Forall_impl; [|exact Hinv].
      intros v Hv. cbv beta. destruct (String.eqb (ID v) id); assumption.
    + intros claims userID.
      destruct (Delete_table claims userID w) as [Ht | Ht]; rewrite Ht; [assumption|].
      apply Forall_forall. intros v Hv. apply filter_In in Hv.
      rewrite Forall_forall in Hinv. apply Hinv. tauto.
Qed.

Lemma C9_witness :
  (Roles (assembled (H := demo) roleless_request noon empty_world)
   = NewUserRequest.Roles roleless_request
   /\ table (snd (@Create demo roleless_request noon empty_world))
      = table empty_world ++ [assembled (H := demo) roleless_request noon empty_world])
  /\ (Roles (assembled (H := demo) carla_request noon two_users)
      = NewUserRequest.Roles carla_request
      /\ Forall (fun u => Roles u <> [])
                (table (snd (@Create demo carla_request noon two_users)))).
Proof.
  split.
  - destruct (proj1 (@C9_roles_come_from_request demo roleless_request noon empty_world)
                    _ _ eq_refl) as [Hroles [Htable _]].
    split; [exact Hroles | exact Htable].
  - destruct (@C9_roles_come_from_request demo carla_request noon two_users)
      as [Hcreated Hkept].
    destruct (Hcreated _ _ eq_refl) as [Hroles _].
    split; [exact Hroles|].
    apply Hkept.
    + repeat constructor; discriminate.
    + discriminate.
Defined.

(** C9, as first stated, fails: on the sample collaborators, a request
    that names no role is accepted, and the user returned, who is now a row
    of the table, has no role. *)
Lemma C9_counterexample :
  snd (fst (@Create demo roleless_request noon empty_world)) = None
  /\ Roles (fst (fst (@Create demo roleless_request noon empty_world))) = []
  /\ In (fst (fst (@Create demo roleless_request noon empty_world)))
        (table (snd (@Create demo roleless_request noon empty_world))).
Proof.
  split; [reflexivity|]. split; [reflexivity|]. left. reflexivity.
Qed.

(** ** Update (claim C7) *)

(** Whatever happens, [Update] does not report [ErrDuplicatedEmail]. *)
Lemma Update_never_DuplicatedEmail `{Collaborators}
      (claims : auth.Claims) (userID : string)
      (uur : UpdateUserRequest.t) (now : time.Time) (w : World) :
  snd (fst (Update claims userID uur now w)) <> Some ErrDuplicatedEmail.
Proof.
  destruct (GetByID claims userID w) as [[u [e|]] w'] eqn:Hget.
  - rewrite (Update_refused _ _ _ _ _ _ _ _ Hget). cbn [fst snd].
    intros He. injection He as He. subst e. revert Hget. rewrite GetByID_run.
    destruct (uuid_Parse userID); [discriminate|].
    destruct (negb _ && negb _); [discriminate|].
    destruct (driver_fault _ _); [discriminate|].
    destruct (find _ _); discriminate.
  - rewrite (Update_fetched _ _ _ _ _ _ _ Hget).
    destruct (driver_fault _ _); discriminate.
Qed.

(** C7.  For a valid identifier, an authorized caller, a store that
    answers the lookup with user [u] and lets the update through, [Update]
    sends the lookup and the update and nothing else (no count of emails),
    rewrites name, last name, email and country of the rows with that
    identifier with the request's values and their update date with [now]
    in UTC, and returns [u] so rewritten, without error.  Nothing is asked
    about the other rows: the new email may be that of another user. *)
Theorem C7_update_overwrites_profile `{Collaborators}
        (claims : auth.Claims) (userID : string)
        (uur : UpdateUserRequest.t) (now : time.Time) (w : World) (u : User) :
  let name := UpdateUserRequest.Name uur in
  let lastName := UpdateUserRequest.LastName uur in
  let email := UpdateUserRequest.Email uur in
  let country := UpdateUserRequest.Country uur in
  let statement := UpdateUser name lastName email country (time.UTC now) userID in
  uuid_Parse userID = None ->
  In RoleAdmin (auth.Roles claims) \/ auth.Subject claims = userID ->
  driver_fault (table w) (SelectByID userID) = None ->
  find (fun v => String.eqb (ID v) userID) (table w) = Some u ->
  driver_fault (table w) statement = None ->
  exists u',
    Update claims userID uur now w =
    ((u', None),
     mkWorld (map (fun v => if String.eqb (ID v) userID
                            then set_profile name lastName email country (time.UTC now) v
                            else v) (table w))
             (journal w ++ [SelectByID userID; statement])
             (entropy w))
    /\ u' = set_profile name lastName email country (time.UTC now) u
    /\ ID u' = userID
    /\ Name u' = name /\ LastName u' = lastName
    /\ Email u' = email /\ Country u' = country
    /\ DateUpdated u' = time.UTC now
    /\ PasswordHash u' = PasswordHash u /\ Roles u' = Roles u
    /\ DateCreated u' = DateCreated u
    /\ In u' (table (snd (Update claims userID uur now w))).
Proof.
  intros name lastName email country statement Hid Hauth Hsel Hfind Hupd.
  assert (Hu : ID u = userID).
  { apply find_some in Hfind. now apply String.eqb_eq. }
  assert (Hget : GetByID claims userID w = ((u, None), logged (SelectByID userID) w)).
  { rewrite GetByID_run, Hid. apply guard_false_iff in Hauth. rewrite Hauth.
    now rewrite Hsel, Hfind. }
  exists (set_profile name lastName email country (time.UTC now) u).
  rewrite (Update_fetched _ _ _ _ _ _ _ Hget). rewrite Hu.
  fold name lastName email country. fold statement.
  cbn [logged table journal entropy]. rewrite Hupd. rewrite <- app_assoc.
  cbn [app snd table].
  repeat split; try assumption.
  apply in_map_iff. exists u. split.
  - rewrite Hu, String.eqb_refl. reflexivity.
  - apply (find_some _ _ Hfind).
Qed.

Lemma C7_witness :
  exists u',
    fst (@Update demo (claims_of bob) id_bob bob_takes_anas_email noon two_users)
    = (u', None)
    /\ ID u' = id_bob
    /\ Email u' = Email ana
    /\ DateUpdated u' = time.UTC noon
    /\ In u' (table (snd (@Update demo (claims_of bob) id_bob bob_takes_anas_email
                            noon two_users)))
    /\ In ana (table two_users).
Proof.
  destruct (@C7_update_overwrites_profile demo (claims_of bob) id_bob
              bob_takes_anas_email noon two_users bob
              eq_refl (or_intror eq_refl) eq_refl eq_refl eq_refl)
    as [u' [Hrun [_ [Hid [_ [_ [Hemail [_ [Hdate [_ [_ [_ Hin]]]]]]]]]]]].
  exists u'. rewrite Hrun. cbn [fst].
  split; [reflexivity|]. split; [exact Hid|]. split; [exact Hemail|].
  split; [exact Hdate|]. split; [exact Hin|]. right. now left.
Defined.

(** ** Paging (claims C8 and C10) *)

Lemma GetAll_run `{Collaborators} (pageNumber rowsPerPage : Z) (w : World) :
  let offset := int_mul (int_sub pageNumber 1) rowsPerPage in
  let statement := SelectPage offset rowsPerPage in
  GetAll pageNumber rowsPerPage w =
  match driver_fault (table w) statement with
  | Some m => (([], Some (Wrap (library_error m) "selecting users")), logged statement w)
  | None =>
      if offset <? 0
      then (([], Some (Wrap (library_error "OFFSET must not be negative") "selecting users")),
            logged statement w)
      else if rowsPerPage <? 0
      then (([], Some (Wrap (library_error "LIMIT must not be negative") "selecting users")),
            logged statement w)
      else ((page offset rowsPerPage (order_by_user_id (table w)), None),
            logged statement w)
  end.
Proof.
  intros offset statement. unfold GetAll. fold offset.
  unfold bind, db_select_page, bind, send, get_table, ret. fold statement.
  destruct (driver_fault (table w) statement); [reflexivity|].
  destruct (offset <? 0); [reflexivity|].
  destruct (rowsPerPage <? 0); reflexivity.
Qed.

(** [GetAll] always sends exactly its one statement and changes no row. *)
Lemma GetAll_world `{Collaborators} (pageNumber rowsPerPage : Z) (w : World) :
  snd (GetAll pageNumber rowsPerPage w)
  = logged (SelectPage (int_mul (int_sub pageNumber 1) rowsPerPage) rowsPerPage) w.
Proof.
  pose proof (GetAll_run pageNumber rowsPerPage w) as Hrun. cbv zeta in Hrun.
  rewrite Hrun.
  destruct (driver_fault _ _); [reflexivity|].
  destruct (_ <? 0); [reflexivity|].
  destruct (rowsPerPage <? 0); reflexivity.
Qed.

(** The offset, when the product fits in an [int]. *)
Lemma offset_exact (pageNumber rowsPerPage : Z) :
  is_int (pageNumber - 1) ->
  is_int ((pageNumber - 1) * rowsPerPage) ->
  int_mul (int_sub pageNumber 1) rowsPerPage = (pageNumber - 1) * rowsPerPage.
Proof.
  intros H1 H2. unfold int_mul, int_sub.
  rewrite (int_wrap_small _ H1). now apply int_wrap_small.
Qed.

Lemma insert_by_id_hd (a u : User) (l : list User) :
  String.leb (ID a) (ID u) = true ->
  HdRel (fun u v => String.leb (ID u) (ID v) = true) a l ->
  HdRel (fun u v => String.leb (ID u) (ID v) = true) a (insert_by_id u l).
Proof.
  intros Hau Hal. destruct l as [|v l]; simpl.
  - now constructor.
  - destruct (id_leb u v); constructor; [assumption|].
    now apply HdRel_inv in Hal.
Qed.

Lemma insert_by_id_ascending (u : User) (l : list User) :
  ascending l -> ascending (insert_by_id u l).
Proof.
  unfold ascending. induction l as [|v l IH]; intros Hs; simpl.
  - repeat constructor.
  - destruct (id_leb u v) eqn:Huv.
    + constructor; [assumption|]. now constructor.
    + apply Sorted_inv in Hs. destruct Hs as [Hs Hhd].
      constructor; [now apply IH|].
      apply insert_by_id_hd; [|assumption].
      unfold id_leb in Huv.
      destruct (String.leb_total (ID u) (ID v)); congruence.
Qed.

Lemma order_by_user_id_ascending (l : list User) : ascending (order_by_user_id l).
Proof.
  induction l as [|u l IH]; simpl.
  - constructor.
  - now apply insert_by_id_ascending.
Qed.

Lemma insert_by_id_perm (u : User) (l : list User) :
  Permutation (u :: l) (insert_by_id u l).
Proof.
  induction l as [|v l IH]; simpl; [reflexivity|].
  destruct (id_leb u v); [reflexivity|].
  rewrite perm_swap. now constructor.
Qed.

(** Ordering keeps the rows: the same ones, as often. *)
Lemma order_by_user_id_perm (l : list User) : Permutation l (order_by_user_id l).
Proof.
  induction l as [|u l IH]; simpl; [constructor|].
  rewrite <- insert_by_id_perm. now constructor.
Qed.

Lemma skipn_ascending (n : nat) (l : list User) :
  ascending l -> ascending (skipn n l).
Proof.
  unfold ascending. revert l. induction n as [|n IH]; intros l Hs; [exact Hs|].
  destruct l as [|u l]; [exact Hs|].
  simpl. apply IH. now apply Sorted_inv in Hs.
Qed.

Lemma firstn_ascending (n : nat) (l : list User) :
  ascending l -> ascending (firstn n l).
Proof.
  unfold ascending. revert l. induction n as [|n IH]; intros l Hs; [constructor|].
  destruct l as [|u l]; [constructor|].
  simpl. apply Sorted_inv in Hs. destruct Hs as [Hs Hhd].
  constructor; [now apply IH|].
  destruct n as [|n]; [constructor|].
  destruct l as [|v l]; [constructor|].
  simpl. constructor. now apply HdRel_inv in Hhd.
Qed.

Lemma page_ascending (offset limit : Z) (l : list User) :
  ascending l -> ascending (page offset limit l).
Proof.
  intros Hs. unfold page. now apply firstn_ascending, skipn_ascending.
Qed.

(** The [i]-th row of a page is the row [offset + i] of the ordered rows. *)
Lemma page_nth (offset limit : Z) (l : list User) (i : nat) :
  (i < Z.to_nat limit)%nat ->
  nth_error (page offset limit l) i = nth_error l (Z.to_nat offset + i).
Proof.
  intros Hi. unfold page. rewrite nth_error_firstn.
  apply Nat.ltb_lt in Hi. rewrite Hi. apply nth_error_skipn.
Qed.

Lemma page_length (offset limit : Z) (l : list User) :
  (List.length (page offset limit l) <= Z.to_nat limit)%nat.
Proof.
  unfold page. apply firstn_le_length.
Qed.

(** The second page of ten: offset 10, limit 10, that is the eleventh to
    the twentieth of the ordered rows. *)
Example GetAll_second_page_of_ten `{Collaborators} (w : World) :
  snd (GetAll 2 10 w) = logged (SelectPage 10 10) w
  /\ forall users i,
       fst (GetAll 2 10 w) = (users, None) -> (i < 10)%nat ->
       nth_error users i = nth_error (order_by_user_id (table w)) (10 + i).
Proof.
  split; [apply GetAll_world|].
  intros users i. pose proof (GetAll_run 2 10 w) as Hrun. cbv zeta in Hrun.
  rewrite Hrun. change (int_mul (int_sub 2 1) 10) with 10.
  destruct (driver_fault _ _); [discriminate|].
  cbn [fst Z.ltb Z.compare]. intros Heq Hi. injection Heq as Heq. subst users.
  now apply (page_nth 10 10).
Qed.

(** C8.  For a page number of at least 1 and a page size whose product
    [(pageNumber - 1) * rowsPerPage] fits in an [int], [GetAll] sends one
    statement, the page at that offset with limit [rowsPerPage], and changes
    no row.  When the driver lets it through and the page size is not
    negative, it returns without error that page of the rows ordered by
    identifier; and whatever it returns without error is that page: in
    ascending order of identifier, at most [rowsPerPage] rows, its [i]-th
    row being row [offset + i] of the ordered rows. *)
Theorem C8_page_request `{Collaborators} (pageNumber rowsPerPage : Z) (w : World) :
  is_int pageNumber -> is_int rowsPerPage ->
  1 <= pageNumber ->
  is_int ((pageNumber - 1) * rowsPerPage) ->
  let offset := (pageNumber - 1) * rowsPerPage in
  let ordered := order_by_user_id (table w) in
  snd (GetAll pageNumber rowsPerPage w) = logged (SelectPage offset rowsPerPage) w
  /\ (pageNumber = 1 -> offset = 0)
  /\ (driver_fault (table w) (SelectPage offset rowsPerPage) = None ->
      0 <= rowsPerPage ->
      fst (GetAll pageNumber rowsPerPage w) = (page offset rowsPerPage ordered, None))
  /\ (forall users,
        fst (GetAll pageNumber rowsPerPage w) = (users, None) ->
        users = page offset rowsPerPage ordered
        /\ ascending users
        /\ (List.length users <= Z.to_nat rowsPerPage)%nat
        /\ (forall i, (i < Z.to_nat rowsPerPage)%nat ->
                      nth_error users i = nth_error ordered (Z.to_nat offset + i)))
  /\ Permutation (table w) ordered.
Proof.
  intros Hp Hr Hone Hfit offset ordered.
  assert (Hp1 : is_int (pageNumber - 1)).
  { unfold is_int, int_min, int_max in *. lia. }
  pose proof (offset_exact pageNumber rowsPerPage Hp1 Hfit) as Hoff. fold offset in Hoff.
  assert (Hpos : (rowsPerPage <? 0) = false -> (offset <? 0) = false).
  { intros Hr0. apply Z.ltb_ge in Hr0. apply Z.ltb_ge. unfold offset. nia. }
  pose proof (GetAll_run pageNumber rowsPerPage w) as Hrun. cbv zeta in Hrun.
  rewrite Hoff in Hrun. fold ordered in Hrun.
  split; [|split; [|split; [|split]]].
  - rewrite GetAll_world. now rewrite Hoff.
  - intros ->. reflexivity.
  - intros Hok Hr0. rewrite Hrun, Hok.
    apply Z.ltb_ge in Hr0. now rewrite (Hpos Hr0), Hr0.
  - intros users. rewrite Hrun.
    destruct (driver_fault _ _); [discriminate|].
    destruct (offset <? 0); [discriminate|].
    destruct (rowsPerPage <? 0); [discriminate|].
    cbn [fst]. intros Heq. injection Heq as Heq. subst users.
    split; [reflexivity|]. split; [|split].
    + apply page_ascending, order_by_user_id_ascending.
    + apply page_length.
    + intros i Hi. now apply page_nth.
  - apply order_by_user_id_perm.
Qed.

Lemma C8_witness :
  snd (@GetAll demo 2 1 two_users) = logged (SelectPage ((2 - 1) * 1) 1) two_users
  /\ fst (@GetAll demo 2 1 two_users) = ([bob], None)
  /\ ascending [bob].
Proof.
  destruct (@C8_page_request demo 2 1 two_users) as [Hw [_ [Hrun [Hany _]]]];
    try int_range.
  split; [exact Hw|].
  assert (Hres : fst (@GetAll demo 2 1 two_users) = ([bob], None)).
  { rewrite Hrun; [reflexivity | reflexivity | lia]. }
  split; [exact Hres|].
  exact (proj1 (proj2 (Hany [bob] Hres))).
Defined.

(** C8, as first stated, fails where the product overflows: for page
    4611686018427387905 of size 4 the product is [2 ^ 64], the offset sent
    is 0, and the rows returned are the first ones. *)
Lemma C8_counterexample :
  is_int 4611686018427387905 /\ 1 <= 4611686018427387905
  /\ (4611686018427387905 - 1) * 4 = 2 ^ 64
  /\ snd (@GetAll demo 4611686018427387905 4 two_users)
     = logged (SelectPage 0 4) two_users
  /\ snd (@GetAll demo 4611686018427387905 4 two_users)
     <> logged (SelectPage ((4611686018427387905 - 1) * 4) 4) two_users
  /\ fst (@GetAll demo 4611686018427387905 4 two_users) = ([ana; bob], None).
Proof.
  split; [int_range|].
  split; [lia|]. split; [reflexivity|]. split; [reflexivity|].
  split; [|reflexivity]. vm_compute. discriminate.
Qed.

(** C10.  For a page number of at most 0 and a positive page size whose
    product [(pageNumber - 1) * rowsPerPage] fits in an [int], [GetAll]
    checks nothing: the offset is negative, the statement is sent with it,
    and what comes back is the store's refusal wrapped with the operation,
    which is none of the domain errors. *)
Theorem C10_nonpositive_page_reaches_store `{Collaborators}
        (pageNumber rowsPerPage : Z) (w : World) :
  is_int pageNumber -> is_int rowsPerPage ->
  pageNumber <= 0 -> 0 < rowsPerPage ->
  is_int ((pageNumber - 1) * rowsPerPage) ->
  let offset := (pageNumber - 1) * rowsPerPage in
  offset < 0
  /\ snd (GetAll pageNumber rowsPerPage w) = logged (SelectPage offset rowsPerPage) w
  /\ exists m,
       fst (GetAll pageNumber rowsPerPage w)
       = ([], Some (Wrap (library_error m) "selecting users"))
       /\ is_domain_error (Wrap (library_error m) "selecting users") = false.
Proof.
  intros Hp Hr Hnonpos Hsize Hfit offset.
  assert (Hneg : offset < 0) by (unfold offset; nia).
  assert (Hp1 : is_int (pageNumber - 1)).
  { unfold is_int, int_min, int_max in *. nia. }
  pose proof (offset_exact pageNumber rowsPerPage Hp1 Hfit) as Hoff. fold offset in Hoff.
  split; [exact Hneg|]. split.
  - rewrite GetAll_world. now rewrite Hoff.
  - pose proof (GetAll_run pageNumber rowsPerPage w) as Hrun. cbv zeta in Hrun.
    rewrite Hoff in Hrun. rewrite Hrun.
    destruct (driver_fault _ _) as [m|].
    + exists m. split; reflexivity.
    + apply Z.ltb_lt in Hneg. rewrite Hneg.
      exists "OFFSET must not be negative"%string. split; reflexivity.
Qed.

Lemma C10_witness :
  (0 - 1) * 10 < 0
  /\ snd (@GetAll demo 0 10 two_users) = logged (SelectPage ((0 - 1) * 10) 10) two_users
  /\ exists m,
       fst (@GetAll demo 0 10 two_users)
       = ([], Some (Wrap (library_error m) "selecting users"))
       /\ is_domain_error (Wrap (library_error m) "selecting users") = false.
Proof.
  apply (@C10_nonpositive_page_reaches_store demo 0 10 two_users); int_range.
Defined.

(** C10, as first stated, fails where the product overflows: for page
    -4611686018427387903 of size 4 the product is [- 2 ^ 64], the offset
    sent is 0, which is not negative, and the first rows come back without
    any error. *)
Lemma C10_counterexample :
  is_int (-4611686018427387903) /\ (-4611686018427387903) <= 0 /\ 0 < 4
  /\ (-4611686018427387903 - 1) * 4 = - 2 ^ 64
  /\ snd (@GetAll demo (-4611686018427387903) 4 two_users)
     = logged (SelectPage 0 4) two_users
  /\ ~ 0 < 0
  /\ fst (@GetAll demo (-4611686018427387903) 4 two_users) = ([ana; bob], None).
Proof.
  split; [int_range|].
  split; [lia|]. split; [lia|]. split; [reflexivity|]. split; [reflexivity|].
  split; [lia | reflexivity].
Qed.

(** * Further properties of the service *)

(** Splits the goal along every branch the operation can take. *)
Ltac branches :=
  repeat match goal with
         | |- context [match ?x with _ => _ end] => destruct x eqn:?
         end.

Lemma Update_run `{Collaborators}
      (claims : auth.Claims) (userID : string)
      (uur : UpdateUserRequest.t) (now : time.Time) (w : World) :
  Update claims userID uur now w =
  match uuid_Parse userID with
  | Some _ => ((zeroUser, Some ErrInvalidID), w)
  | None =>
      if negb (auth.Authorized claims [RoleAdmin])
         && negb (String.eqb (auth.Subject claims) userID)
      then ((zeroUser, Some ErrForbidden), w)
      else
        match driver_fault (table w) (SelectByID userID) with
        | Some m =>
            ((zeroUser, Some (Wrapf (library_error m) "selecting user %q" [userID])),
             logged (SelectByID userID) w)
        | None =>
            match find (fun u => String.eqb (ID u) userID) (table w) with
            | None => ((zeroUser, Some ErrNotFound), logged (SelectByID userID) w)
            | Some u =>
                match driver_fault (table w) (update_statement uur now (ID u)) with
                | Some m =>
                    ((zeroUser, Some (Wrap (library_error m) "updating user")),
                     logged (update_statement uur now (ID u)) (logged (SelectByID userID) w))
                | None =>
                    ((updated uur now u, None),
                     mkWorld (map (fun v => if String.eqb (ID v) (ID u)
                                            then updated uur now v else v) (table w))
                             (journal w ++ [SelectByID userID;
                                            update_statement uur now (ID u)])
                             (entropy w))
                end
            end
        end
  end.
Proof.
  destruct (GetByID claims userID w) as [[u [e|]] w'] eqn:Hget.
  - rewrite (Update_refused _ _ _ _ _ _ _ _ Hget).
    revert Hget. rewrite GetByID_run. branches; intros Heq; now inversion Heq.
  - rewrite (Update_fetched _ _ _ _ _ _ _ Hget).
    revert Hget. rewrite GetByID_run.
    destruct (uuid_Parse userID); [discriminate|].
    destruct (negb _ && negb _); [discriminate|].
    destruct (driver_fault (table w) (SelectByID userID)); [discriminate|].
    destruct (find _ (table w)) as [v|]; [|discriminate].
    intros Heq. inversion Heq. subst v w'. clear Heq.
    unfold update_statement, updated, logged. cbn [table journal entropy].
    destruct (driver_fault (table w) _); [reflexivity|].
    rewrite <- app_assoc. reflexivity.
Qed.

(** X1.  A caller that is neither an admin nor the target is refused by
    [GetByID], [Delete] and [Update] before anything reaches the store: the
    answer is [ErrForbidden] and the world, journal included, is as it
    was. *)
Theorem forbidden_before_store `{Collaborators}
        (claims : auth.Claims) (userID : string)
        (uur : UpdateUserRequest.t) (now : time.Time) (w : World) :
  uuid_Parse userID = None ->
  ~ In RoleAdmin (auth.Roles claims) ->
  auth.Subject claims <> userID ->
  GetByID claims userID w = ((zeroUser, Some ErrForbidden), w)
  /\ Delete claims userID w = (Some ErrForbidden, w)
  /\ Update claims userID uur now w = ((zeroUser, Some ErrForbidden), w).
Proof.
  intros Hid Hrole Hsubj.
  assert (Hg : negb (auth.Authorized claims [RoleAdmin])
               && negb (String.eqb (auth.Subject claims) userID) = true)
    by (apply guard_true_iff; tauto).
  rewrite GetByID_run, Delete_run, Update_run, Hid, Hg. repeat split.
Qed.

Lemma forbidden_before_store_witness :
  @GetByID demo (claims_of bob) id_ana two_users = ((zeroUser, Some ErrForbidden), two_users)
  /\ @Delete demo (claims_of bob) id_ana two_users = (Some ErrForbidden, two_users)
  /\ @Update demo (claims_of bob) id_ana bob_renamed later two_users
     = ((zeroUser, Some ErrForbidden), two_users).
Proof.
  apply (@forbidden_before_store demo (claims_of bob) id_ana bob_renamed later two_users).
  - reflexivity.
  - intros [Hin | []]; discriminate.
  - discriminate.
Defined.

(** X2.  For an authorized caller and an identifier that no row carries,
    a store that answers the lookup makes [GetByID] report [ErrNotFound];
    [Update] reports the same and stops there: only the lookup has been
    sent, no update statement. *)
Theorem missing_user_not_found `{Collaborators}
        (claims : auth.Claims) (userID : string)
        (uur : UpdateUserRequest.t) (now : time.Time) (w : World) :
  uuid_Parse userID = None ->
  In RoleAdmin (auth.Roles claims) \/ auth.Subject claims = userID ->
  driver_fault (table w) (SelectByID userID) = None ->
  (forall u, In u (table w) -> ID u <> userID) ->
  GetByID claims userID w = ((zeroUser, Some ErrNotFound), logged (SelectByID userID) w)
  /\ Update claims userID uur now w
     = ((zeroUser, Some ErrNotFound), logged (SelectByID userID) w).
Proof.
  intros Hid Hauth Hsel Habsent.
  apply guard_false_iff in Hauth.
  assert (Hfind : find (fun u => String.eqb (ID u) userID) (table w) = None).
  { apply find_absent. intros u Hu. apply String.eqb_neq. now apply Habsent. }
  rewrite GetByID_run, Update_run, Hid, Hauth, Hsel, Hfind. split; reflexivity.
Qed.

Lemma missing_user_not_found_witness :
  @GetByID demo (claims_of ana) id_eve two_users
  = ((zeroUser, Some ErrNotFound), logged (SelectByID id_eve) two_users)
  /\ @Update demo (claims_of ana) id_eve bob_renamed later two_users
     = ((zeroUser, Some ErrNotFound), logged (SelectByID id_eve) two_users).
Proof.
  apply (@missing_user_not_found demo (claims_of ana) id_eve bob_renamed later two_users).
  - reflexivity.
  - left. now left.
  - reflexivity.
  - intros u [Hu | [Hu | []]]; subst u; discriminate.
Defined.

(** X3.  The three reading operations never touch the rows nor draw
    randomness: [GetByID] leaves the world as it was or journals its one
    lookup, [GetAll] and [Authenticate] journal exactly their one
    statement. *)
Theorem reads_change_no_row `{Collaborators}
        (claims : auth.Claims) (userID email password : string)
        (pageNumber rowsPerPage : Z) (now : time.Time) (w : World) :
  (snd (GetByID claims userID w) = w
   \/ snd (GetByID claims userID w) = logged (SelectByID userID) w)
  /\ snd (GetAll pageNumber rowsPerPage w)
     = logged (SelectPage (int_mul (int_sub pageNumber 1) rowsPerPage) rowsPerPage) w
  /\ snd (Authenticate now email password w) = logged (SelectByEmail email) w
  /\ table (snd (GetByID claims userID w)) = table w
  /\ table (snd (GetAll pageNumber rowsPerPage w)) = table w
  /\ table (snd (Authenticate now email password w)) = table w
  /\ entropy (snd (GetByID claims userID w)) = entropy w
  /\ entropy (snd (GetAll pageNumber rowsPerPage w)) = entropy w
  /\ entropy (snd (Authenticate now email password w)) = entropy w.
Proof.
  assert (Hg : snd (GetByID claims userID w) = w
               \/ snd (GetByID claims userID w) = logged (SelectByID userID) w).
  { rewrite GetByID_run. branches; cbn [snd]; tauto. }
  assert (Ha : snd (Authenticate now email password w) = logged (SelectByEmail email) w).
  { rewrite Authenticate_run. branches; reflexivity. }
  split; [exact Hg|]. split; [apply GetAll_world|]. split; [exact Ha|].
  rewrite GetAll_world, Ha.
  destruct Hg as [Hg | Hg]; rewrite Hg; repeat split.
Qed.

(** X4.  Which domain errors an operation can report: [GetByID] and
    [Update] only [ErrInvalidID], [ErrForbidden] and [ErrNotFound];
    [Delete] only [ErrInvalidID] and [ErrForbidden], never [ErrNotFound];
    [Create] only [ErrDuplicatedEmail]; [Authenticate] only
    [ErrAuthenticationFailure]; [GetAll] none at all. *)
Theorem domain_errors_by_operation `{Collaborators}
        (claims : auth.Claims) (userID email password : string)
        (uur : UpdateUserRequest.t) (nur : NewUserRequest.t)
        (pageNumber rowsPerPage : Z) (now : time.Time) (w : World)
        (e : error_value) :
  (snd (fst (GetByID claims userID w)) = Some e -> is_domain_error e = true ->
   e = ErrInvalidID \/ e = ErrForbidden \/ e = ErrNotFound)
  /\ (snd (fst (Update claims userID uur now w)) = Some e -> is_domain_error e = true ->
      e = ErrInvalidID \/ e = ErrForbidden \/ e = ErrNotFound)
  /\ (fst (Delete claims userID w) = Some e -> is_domain_error e = true ->
      e = ErrInvalidID \/ e = ErrForbidden)
  /\ (snd (fst (Create nur now w)) = Some e -> is_domain_error e = true ->
      e = ErrDuplicatedEmail)
  /\ (snd (fst (Authenticate now email password w)) = Some e ->
      is_domain_error e = true -> e = ErrAuthenticationFailure)
  /\ (snd (fst (GetAll pageNumber rowsPerPage w)) = Some e -> is_domain_error e = false).
Proof.
  pose proof (Create_run nur now w) as Hcreate. cbv zeta in Hcreate.
  pose proof (GetAll_run pageNumber rowsPerPage w) as Hall. cbv zeta in Hall.
  rewrite GetByID_run, Update_run, Delete_run, Authenticate_run, Hcreate, Hall.
  repeat split; branches; cbn [fst snd]; intros He; inversion He; subst e;
    cbn [is_domain_error Wrap]; (discriminate || tauto).
Qed.

(** X5.  An error never comes with data: whenever an operation reports an
    error, the value beside it is the zero user, the zero claims or the
    empty list. *)
Theorem errors_come_with_zero_values `{Collaborators}
        (claims : auth.Claims) (userID email password : string)
        (uur : UpdateUserRequest.t) (nur : NewUserRequest.t)
        (pageNumber rowsPerPage : Z) (now : time.Time) (w : World)
        (e : error_value) :
  (snd (fst (GetByID claims userID w)) = Some e ->
   fst (fst (GetByID claims userID w)) = zeroUser)
  /\ (snd (fst (Update claims userID uur now w)) = Some e ->
      fst (fst (Update claims userID uur now w)) = zeroUser)
  /\ (snd (fst (Create nur now w)) = Some e ->
      fst (fst (Create nur now w)) = zeroUser)
  /\ (snd (fst (Authenticate now email password w)) = Some e ->
      fst (fst (Authenticate now email password w)) = auth.zero)
  /\ (snd (fst (GetAll pageNumber rowsPerPage w)) = Some e ->
      fst (fst (GetAll pageNumber rowsPerPage w)) = []).
Proof.
  pose proof (Create_run nur now w) as Hcreate. cbv zeta in Hcreate.
  pose proof (GetAll_run pageNumber rowsPerPage w) as Hall. cbv zeta in Hall.
  rewrite GetByID_run, Update_run, Authenticate_run, Hcreate, Hall.
  repeat split; branches; cbn [fst snd]; intros He; (discriminate || reflexivity).
Qed.

(** X6.  An error that is not a domain error is a wrapper whose cause,
    as [errors.Cause] finds it, is the error the library raised: the
    original failure is kept for diagnostics under every operation. *)
Theorem failures_keep_their_cause `{Collaborators}
        (claims : auth.Claims) (userID email password : string)
        (uur : UpdateUserRequest.t) (nur : NewUserRequest.t)
        (pageNumber rowsPerPage : Z) (now : time.Time) (w : World)
        (e : error_value) :
  let library := exists m, Cause e = library_error m /\ e <> library_error m in
  (snd (fst (GetByID claims userID w)) = Some e -> is_domain_error e = false -> library)
  /\ (snd (fst (Update claims userID uur now w)) = Some e ->
      is_domain_error e = false -> library)
  /\ (fst (Delete claims userID w) = Some e -> is_domain_error e = false -> library)
  /\ (snd (fst (Create nur now w)) = Some e -> is_domain_error e = false -> library)
  /\ (snd (fst (Authenticate now email password w)) = Some e ->
      is_domain_error e = false -> library)
  /\ (snd (fst (GetAll pageNumber rowsPerPage w)) = Some e ->
      is_domain_error e = false -> library).
Proof.
  pose proof (Create_run nur now w) as Hcreate. cbv zeta in Hcreate.
  pose proof (GetAll_run pageNumber rowsPerPage w) as Hall. cbv zeta in Hall.
  cbv zeta.
  rewrite GetByID_run, Update_run, Delete_run, Authenticate_run, Hcreate, Hall.
  repeat split; branches; cbn [fst snd]; intros He; inversion He; subst e;
    cbn [is_domain_error]; intros Hd; try discriminate;
    eexists; (split; [reflexivity | discriminate]).
Qed.

(** ** Creation, further *)

Lemma count_email_zero_inv (email : string) (t : list User) :
  count_email email t = 0 -> forall u, In u t -> Email u <> email.
Proof.
  intros Hzero u Hin Heq.
  apply (count_email_positive email t); [|exact Hzero].
  exists u. now split.
Qed.

Lemma find_app_absent {A : Type} (f : A -> bool) (l l' : list A) :
  find f l = None -> find f (l ++ l') = find f l'.
Proof.
  induction l as [|a l IH]; intros Hnone; [reflexivity|].
  simpl in *. destruct (f a); [discriminate|]. now apply IH.
Qed.

(** A [Create] that reports no error found no row with the email. *)
Lemma Create_success_free `{Collaborators}
      (nur : NewUserRequest.t) (now : time.Time) (w w' : World) (u : User) :
  Create nur now w = ((u, None), w') ->
  forall v, In v (table w) -> Email v <> NewUserRequest.Email nur.
Proof.
  pose proof (Create_run nur now w) as Hrun. cbv zeta in Hrun. rewrite Hrun.
  destruct (driver_fault (table w) (CountByEmail _)); [discriminate|].
  destruct (count_email _ _ =? 0) eqn:Hcount; [|discriminate].
  intros _. apply count_email_zero_inv. now apply Z.eqb_eq.
Qed.


(** X9.  Once a user has been created, a second request with the same
    email is turned down: the store having answered the count,
    [Create] reports [ErrDuplicatedEmail] and adds no row. *)
Theorem Create_twice_is_duplicate `{Collaborators}
        (nur nur' : NewUserRequest.t) (now now' : time.Time) (w w' : World) (u : User) :
  Create nur now w = ((u, None), w') ->
  NewUserRequest.Email nur' = NewUserRequest.Email nur ->
  driver_fault (table w') (CountByEmail (NewUserRequest.Email nur)) = None ->
  Create nur' now' w'
  = ((zeroUser, Some ErrDuplicatedEmail),
     logged (CountByEmail (NewUserRequest.Email nur)) w').
Proof.
  intros Hfirst Hsame Hok.
  apply Create_success_inv in Hfirst. destruct Hfirst as [Hu Hw].
  assert (Hcount : count_email (NewUserRequest.Email nur) (table w') <> 0).
  { apply count_email_positive. exists u. split.
    - subst w'. cbn [table]. apply in_or_app. right. now left.
    - now subst u. }
  pose proof (Create_run nur' now' w') as Hrun. cbv zeta in Hrun.
  rewrite Hrun, Hsame, Hok. apply Z.eqb_neq in Hcount. now rewrite Hcount.
Qed.

Lemma Create_twice_is_duplicate_witness :
  @Create demo roleless_request later (snd (@Create demo carla_request noon two_users))
  = ((zeroUser, Some ErrDuplicatedEmail),
     logged (CountByEmail "carla@example.com")
            (snd (@Create demo carla_request noon two_users))).
Proof.
  apply (@Create_twice_is_duplicate demo carla_request roleless_request noon later
           two_users _ (assembled (H := demo) carla_request noon two_users));
    reflexivity.
Defined.

(** X10.  Whoever has just been created can authenticate: when the hash
    generated for the password verifies against it and the store answers
    the lookup, [Authenticate] with the request's email and password issues
    claims for the new user. *)
Theorem Create_then_Authenticate `{Collaborators}
        (nur : NewUserRequest.t) (now now' : time.Time) (w w' : World) (u : User) :
  Create nur now w = ((u, None), w') ->
  bcrypt_CompareHashAndPassword
    (PasswordHash u) (list_byte_of_string (NewUserRequest.Password nur)) = None ->
  driver_fault (table w') (SelectByEmail (NewUserRequest.Email nur)) = None ->
  fst (Authenticate now' (NewUserRequest.Email nur) (NewUserRequest.Password nur) w')
  = (issued u now', None)
  /\ auth.Subject (issued u now') = ID u
  /\ auth.Roles (issued u now') = NewUserRequest.Roles nur.
Proof.
  intros Hcreate Hpw Hok.
  pose proof (Create_success_free _ _ _ _ _ Hcreate) as Hfree.
  apply Create_success_inv in Hcreate. destruct Hcreate as [Hu Hw].
  assert (Hfind : find (fun v => String.eqb (Email v) (NewUserRequest.Email nur))
                       (table w') = Some u).
  { subst w'. cbn [table]. rewrite find_app_absent.
    - simpl. replace (Email u) with (NewUserRequest.Email nur) by now subst u.
      now rewrite String.eqb_refl.
    - apply find_absent. intros v Hv. apply String.eqb_neq. now apply Hfree. }
  rewrite Authenticate_run, Hok, Hfind, Hpw.
  split; [reflexivity|]. split; [reflexivity|]. now subst u.
Qed.

Lemma Create_then_Authenticate_witness :
  fst (@Authenticate demo later "carla@example.com" "carla-secret"
         (snd (@Create demo carla_request noon two_users)))
  = (issued (assembled (H := demo) carla_request noon two_users) later, None)
  /\ auth.Subject (issued (assembled (H := demo) carla_request noon two_users) later)
     = ID (assembled (H := demo) carla_request noon two_users)
  /\ auth.Roles (issued (assembled (H := demo) carla_request noon two_users) later)
     = NewUserRequest.Roles carla_request.
Proof.
  apply (@Create_then_Authenticate demo carla_request noon later two_users
           (snd (@Create demo carla_request noon two_users))
           (assembled (H := demo) carla_request noon two_users));
    reflexivity.
Defined.



(** A created user is stamped once: its creation and update dates are the
    same value, located in UTC, and denote the instant [now] that the
    caller passed, whatever the location of [now]. *)
Lemma Create_stamps_now_in_UTC `{Collaborators}
        (nur : NewUserRequest.t) (now : time.Time) (w w' : World) (u : User) :
  Create nur now w = ((u, None), w') ->
  DateCreated u = DateUpdated u
  /\ time.loc (DateCreated u) = time.UTCLoc
  /\ time.sec (DateCreated u) = time.sec now
  /\ time.nsec (DateCreated u) = time.nsec now
  /\ time.Unix (DateCreated u) = time.Unix now.
Proof.
  intros Hcreate. apply Create_success_inv in Hcreate.
  destruct Hcreate as [Hu _]. subst u. repeat split.
Qed.

Lemma Create_stamps_now_in_UTC_witness :
  DateCreated (assembled (H := demo) carla_request noon two_users)
  = DateUpdated (assembled (H := demo) carla_request noon two_users)
  /\ time.loc (DateCreated (assembled (H := demo) carla_request noon two_users))
     = time.UTCLoc
  /\ time.sec (DateCreated (assembled (H := demo) carla_request noon two_users))
     = time.sec noon
  /\ time.nsec (DateCreated (assembled (H := demo) carla_request noon two_users))
     = time.nsec noon
  /\ time.Unix (DateCreated (assembled (H := demo) carla_request noon two_users))
     = time.Unix noon.
Proof.
  apply (@Create_stamps_now_in_UTC demo carla_request noon two_users
           (snd (@Create demo carla_request noon two_users))).
  reflexivity.
Defined.

(** ** Lookup and authentication, read backwards *)

(** X12.  What [GetByID] returns without error is a row of the table
    carrying the identifier asked for, and the caller was entitled to it:
    the identifier parses and the caller is an admin or that very user. *)
Theorem GetByID_returns_the_row_asked_for `{Collaborators}
        (claims : auth.Claims) (userID : string) (w : World) (u : User) :
  fst (GetByID claims userID w) = (u, None) ->
  In u (table w)
  /\ ID u = userID
  /\ uuid_Parse userID = None
  /\ (In RoleAdmin (auth.Roles claims) \/ auth.Subject claims = userID).
Proof.
  rewrite GetByID_run.
  destruct (uuid_Parse userID); [discriminate|].
  destruct (negb _ && negb _) eqn:Hguard; [discriminate|].
  destruct (driver_fault _ _); [discriminate|].
  destruct (find _ (table w)) as [v|] eqn:Hfind; [|discriminate].
  cbn [fst]. intros Heq. injection Heq as Heq. subst v.
  apply find_some in Hfind. destruct Hfind as [Hin Hid].
  apply String.eqb_eq in Hid. apply guard_false_iff in Hguard. tauto.
Qed.

Lemma GetByID_returns_the_row_asked_for_witness :
  In bob (table two_users)
  /\ ID bob = id_bob
  /\ @uuid_Parse demo id_bob = None
  /\ (In (@RoleAdmin demo) (auth.Roles (claims_of bob))
      \/ auth.Subject (claims_of bob) = id_bob).
Proof.
  apply (@GetByID_returns_the_row_asked_for demo (claims_of bob) id_bob two_users bob).
  reflexivity.
Defined.

(** X13.  Claims are issued only on a verified password: whenever
    [Authenticate] reports no error, the store held a row with that email,
    the password verified against that row's hash, and the claims are the
    ones issued for that row. *)
Theorem Authenticate_issues_only_on_verification `{Collaborators}
        (now : time.Time) (email password : string) (w : World) (c : auth.Claims) :
  fst (Authenticate now email password w) = (c, None) ->
  exists u,
    In u (table w)
    /\ Email u = email
    /\ bcrypt_CompareHashAndPassword (PasswordHash u) (list_byte_of_string password) = None
    /\ c = issued u now.
Proof.
  rewrite Authenticate_run.
  destruct (driver_fault _ _); [discriminate|].
  destruct (find _ (table w)) as [u|] eqn:Hfind; [|discriminate].
  destruct (bcrypt_CompareHashAndPassword _ _) eqn:Hpw; [discriminate|].
  cbn [fst]. intros Heq. injection Heq as Heq. subst c.
  apply find_some in Hfind. destruct Hfind as [Hin Hemail].
  apply String.eqb_eq in Hemail. exists u. tauto.
Qed.

Lemma Authenticate_issues_only_on_verification_witness :
  exists u,
    In u (table two_users)
    /\ Email u = "bob@example.com"%string
    /\ @bcrypt_CompareHashAndPassword demo (PasswordHash u)
         (list_byte_of_string "bob-secret") = None
    /\ issued bob later = issued u later.
Proof.
  apply (@Authenticate_issues_only_on_verification demo later "bob@example.com"
           "bob-secret" two_users (issued bob later)).
  reflexivity.
Defined.

(** ** Deletion *)

(** X14.  For a valid identifier, an authorized caller and a store that
    lets the statement through, [Delete] reports no error, sends its one
    statement, and afterwards the rows are exactly the former rows with
    another identifier, in their former order; a lookup of the deleted
    identifier that the store answers then finds nothing. *)
Theorem Delete_removes_the_user `{Collaborators}
        (claims : auth.Claims) (userID : string) (w : World) :
  uuid_Parse userID = None ->
  In RoleAdmin (auth.Roles claims) \/ auth.Subject claims = userID ->
  driver_fault (table w) (DeleteUser userID) = None ->
  let w' := snd (Delete claims userID w) in
  Delete claims userID w
  = (None, mkWorld (filter (fun u => negb (String.eqb (ID u) userID)) (table w))
                   (journal w ++ [DeleteUser userID]) (entropy w))
  /\ (forall u, In u (table w') <-> In u (table w) /\ ID u <> userID)
  /\ (driver_fault (table w') (SelectByID userID) = None ->
      fst (GetByID claims userID w') = (zeroUser, Some ErrNotFound)).
Proof.
  intros Hid Hauth Hok w'. apply guard_false_iff in Hauth.
  assert (Hrun : Delete claims userID w
                 = (None, mkWorld (filter (fun u => negb (String.eqb (ID u) userID)) (table w))
                                  (journal w ++ [DeleteUser userID]) (entropy w))).
  { now rewrite Delete_run, Hid, Hauth, Hok. }
  assert (Hrows : forall u, In u (table w') <-> In u (table w) /\ ID u <> userID).
  { intros u. unfold w'. rewrite Hrun. cbn [snd table].
    rewrite filter_In, negb_true_iff, String.eqb_neq. tauto. }
  split; [exact Hrun|]. split; [exact Hrows|].
  intros Hsel. rewrite GetByID_run, Hid, Hauth, Hsel.
  rewrite find_absent; [reflexivity|].
  intros u Hu. apply String.eqb_neq. now apply Hrows.
Qed.

Lemma Delete_removes_the_user_witness :
  @Delete demo (claims_of bob) id_bob two_users
  = (None, mkWorld [ana] [DeleteUser id_bob] 0)
  /\ (forall u, In u (table (snd (@Delete demo (claims_of bob) id_bob two_users)))
                <-> In u (table two_users) /\ ID u <> id_bob)
  /\ (@driver_fault demo (table (snd (@Delete demo (claims_of bob) id_bob two_users)))
        (SelectByID id_bob) = None ->
      fst (@GetByID demo (claims_of bob) id_bob
             (snd (@Delete demo (claims_of bob) id_bob two_users)))
      = (zeroUser, Some ErrNotFound)).
Proof.
  apply (@Delete_removes_the_user demo (claims_of bob) id_bob two_users).
  - reflexivity.
  - right. reflexivity.
  - reflexivity.
Defined.

Lemma filter_id {A : Type} (f : A -> bool) (l : list A) :
  (forall x, In x l -> f x = true) -> filter f l = l.
Proof.
  induction l as [|a l IH]; intros Hall; [reflexivity|].
  simpl. rewrite (Hall a (or_introl eq_refl)). f_equal.
  apply IH. intros x Hx. apply Hall. now right.
Qed.

Lemma filter_twice {A : Type} (f : A -> bool) (l : list A) :
  filter f (filter f l) = filter f l.
Proof.
  apply filter_id. intros x Hx. now apply filter_In in Hx.
Qed.

(** X15.  Deleting is idempotent: for a valid identifier and an
    authorized caller, deleting an identifier that no row carries reports
    no error and leaves the rows as they were; hence deleting a second time
    succeeds again and changes nothing more. *)
Theorem Delete_is_idempotent `{Collaborators}
        (claims : auth.Claims) (userID : string) (w : World) :
  uuid_Parse userID = None ->
  In RoleAdmin (auth.Roles claims) \/ auth.Subject claims = userID ->
  driver_fault (table w) (DeleteUser userID) = None ->
  let once := snd (Delete claims userID w) in
  ((forall u, In u (table w) -> ID u <> userID) ->
   Delete claims userID w = (None, logged (DeleteUser userID) w))
  /\ (driver_fault (table once) (DeleteUser userID) = None ->
      fst (Delete claims userID once) = None
      /\ table (snd (Delete claims userID once)) = table once).
Proof.
  intros Hid Hauth Hok once. apply guard_false_iff in Hauth.
  assert (Hrun : forall v, driver_fault (table v) (DeleteUser userID) = None ->
                 Delete claims userID v
                 = (None, mkWorld (filter (fun u => negb (String.eqb (ID u) userID)) (table v))
                                  (journal v ++ [DeleteUser userID]) (entropy v))).
  { intros v Hv. now rewrite Delete_run, Hid, Hauth, Hv. }
  split.
  - intros Habsent. rewrite (Hrun w Hok). unfold logged. f_equal. f_equal.
    apply filter_id. intros u Hu. apply negb_true_iff, String.eqb_neq. now apply Habsent.
  - intros Hok'. rewrite (Hrun once Hok'). cbn [fst snd table]. split; [reflexivity|].
    unfold once. rewrite (Hrun w Hok). cbn [snd table]. apply filter_twice.
Qed.

Lemma Delete_is_idempotent_witness :
  ((forall u, In u (table two_users) -> ID u <> id_eve) ->
   @Delete demo (claims_of ana) id_eve two_users
   = (None, logged (DeleteUser id_eve) two_users))
  /\ (@driver_fault demo (table (snd (@Delete demo (claims_of ana) id_eve two_users)))
        (DeleteUser id_eve) = None ->
      fst (@Delete demo (claims_of ana) id_eve
             (snd (@Delete demo (claims_of ana) id_eve two_users))) = None
      /\ table (snd (@Delete demo (claims_of ana) id_eve
                       (snd (@Delete demo (claims_of ana) id_eve two_users))))
         = table (snd (@Delete demo (claims_of ana) id_eve two_users))).
Proof.
  apply (@Delete_is_idempotent demo (claims_of ana) id_eve two_users).
  - reflexivity.
  - left. now left.
  - reflexivity.
Defined.

(** ** Update, further *)

(** The rows after an [Update]: untouched, or with the rows carrying the
    target identifier rewritten. *)
Lemma Update_table_exact `{Collaborators}
      (claims : auth.Claims) (userID : string)
      (uur : UpdateUserRequest.t) (now : time.Time) (w : World) :
  table (snd (Update claims userID uur now w)) = table w
  \/ table (snd (Update claims userID uur now w))
     = map (fun v => if String.eqb (ID v) userID then updated uur now v else v) (table w).
Proof.
  rewrite Update_run.
  destruct (uuid_Parse userID); [now left|].
  destruct (negb _ && negb _); [now left|].
  destruct (driver_fault (table w) (SelectByID userID)); [now left|].
  destruct (find _ (table w)) as [u|] eqn:Hfind; [|now left].
  apply find_some in Hfind. destruct Hfind as [_ Hu]. apply String.eqb_eq in Hu.
  rewrite Hu. destruct (driver_fault (table w) _); [now left | now right].
Qed.

(** X16.  [Update] never adds or removes a row and never changes
    anyone's identifier, password hash, roles or creation date, whatever
    the caller, the request and the store's answers. *)
Theorem Update_keeps_identity_and_credentials `{Collaborators}
        (claims : auth.Claims) (userID : string)
        (uur : UpdateUserRequest.t) (now : time.Time) (w : World) :
  let rows := table (snd (Update claims userID uur now w)) in
  List.length rows = List.length (table w)
  /\ map ID rows = map ID (table w)
  /\ map PasswordHash rows = map PasswordHash (table w)
  /\ map Roles rows = map Roles (table w)
  /\ map DateCreated rows = map DateCreated (table w).
Proof.
  intros rows. unfold rows.
  destruct (Update_table_exact claims userID uur now w) as [Ht | Ht]; rewrite Ht.
  - repeat split.
  - rewrite length_map, !map_map.
    repeat split; apply map_ext; intros v;
      destruct (String.eqb (ID v) userID); reflexivity.
Qed.

(** X17.  [Update] touches the target only: a row with another
    identifier is, after any [Update] on [userID], the same row at the same
    place. *)
Theorem Update_leaves_other_users_alone `{Collaborators}
        (claims : auth.Claims) (userID : string)
        (uur : UpdateUserRequest.t) (now : time.Time) (w : World)
        (i : nat) (v : User) :
  nth_error (table w) i = Some v ->
  ID v <> userID ->
  nth_error (table (snd (Update claims userID uur now w))) i = Some v.
Proof.
  intros Hnth Hother.
  destruct (Update_table_exact claims userID uur now w) as [Ht | Ht]; rewrite Ht;
    [exact Hnth|].
  rewrite nth_error_map, Hnth. cbn [option_map].
  apply String.eqb_neq in Hother. now rewrite Hother.
Qed.

Lemma Update_leaves_other_users_alone_witness :
  nth_error (table (snd (@Update demo (claims_of bob) id_bob bob_renamed later two_users))) 1
  = Some ana.
Proof.
  apply (@Update_leaves_other_users_alone demo (claims_of bob) id_bob bob_renamed later
           two_users 1 ana).
  - reflexivity.
  - discriminate.
Defined.




Lemma find_unique {A : Type} (f : A -> bool) (l : list A) (x : A) :
  In x l -> f x = true ->
  (forall y, In y l -> f y = true -> y = x) ->
  find f l = Some x.
Proof.
  intros Hin Hfx Honly.
  destruct (find f l) as [y|] eqn:Hfind.
  - apply find_some in Hfind. destruct Hfind as [Hy Hfy].
    f_equal. now apply Honly.
  - now rewrite (find_none _ _ Hfind x Hin) in Hfx.
Qed.

(** X19.  Changing one's profile does not lock one out: when [u] is the
    only row with the target identifier and no other row has the new
    email, then after an [Update] that went through, a password that
    verified against [u]'s hash still authenticates under the new email,
    in whatever order the rows are stored; the claims are issued for the
    same identifier and roles. *)
Theorem Update_then_Authenticate `{Collaborators}
        (claims : auth.Claims) (userID password : string)
        (uur : UpdateUserRequest.t) (now now' : time.Time) (w : World) (u : User) :
  let w' := snd (Update claims userID uur now w) in
  let email := UpdateUserRequest.Email uur in
  uuid_Parse userID = None ->
  In RoleAdmin (auth.Roles claims) \/ auth.Subject claims = userID ->
  driver_fault (table w) (SelectByID userID) = None ->
  In u (table w) ->
  ID u = userID ->
  (forall v, In v (table w) -> ID v = userID -> v = u) ->
  (forall v, In v (table w) -> ID v <> userID -> Email v <> email) ->
  driver_fault (table w) (update_statement uur now userID) = None ->
  bcrypt_CompareHashAndPassword (PasswordHash u) (list_byte_of_string password) = None ->
  driver_fault (table w') (SelectByEmail email) = None ->
  exists c,
    fst (Authenticate now' email password w') = (c, None)
    /\ auth.Subject c = userID
    /\ auth.Roles c = Roles u.
Proof.
  intros w' email Hid Hauth Hsel Hin Hu Honly Hothers Hupd Hpw Hsel'.
  apply guard_false_iff in Hauth.
  assert (Hfind : find (fun v => String.eqb (ID v) userID) (table w) = Some u).
  { apply find_unique; [exact Hin | now apply String.eqb_eq |].
    intros v Hv Hvid. apply String.eqb_eq in Hvid. now apply Honly. }
  assert (Hrun : snd (Update claims userID uur now w)
                 = mkWorld (map (fun v => if String.eqb (ID v) userID
                                          then updated uur now v else v) (table w))
                           (journal w ++ [SelectByID userID;
                                          update_statement uur now userID])
                           (entropy w)).
  { rewrite Update_run, Hid, Hauth, Hsel, Hfind, Hu, Hupd. reflexivity. }
  revert Hsel'. unfold w'. rewrite Hrun. cbn [table]. intros Hsel'.
  exists (issued (updated uur now u) now').
  rewrite Authenticate_run. cbn [table]. rewrite Hsel'.
  assert (Hfind' : find (fun v => String.eqb (Email v) email)
                        (map (fun v => if String.eqb (ID v) userID
                                       then updated uur now v else v) (table w))
                   = Some (updated uur now u)).
  { apply find_unique.
    - apply in_map_iff. exists u. split; [|exact Hin].
      now rewrite Hu, String.eqb_refl.
    - cbn [updated set_profile Email]. fold email. apply String.eqb_refl.
    - intros y Hy Hmail. apply in_map_iff in Hy. destruct Hy as [v [Hv Hvin]].
      destruct (String.eqb (ID v) userID) eqn:Hvid.
      + apply String.eqb_eq in Hvid. rewrite (Honly v Hvin Hvid) in Hv. now subst y.
      + apply String.eqb_neq in Hvid. subst y. apply String.eqb_eq in Hmail.
        now elim (Hothers v Hvin Hvid). }
  rewrite Hfind'. cbn [updated set_profile PasswordHash]. rewrite Hpw.
  repeat split. exact Hu.
Qed.

Lemma Update_then_Authenticate_witness :
  exists c,
    fst (@Authenticate demo later "ana.paz@example.com" "ana-secret"
           (snd (@Update demo (claims_of ana) id_ana ana_renamed noon two_users)))
    = (c, None)
    /\ auth.Subject c = id_ana
    /\ auth.Roles c = Roles ana.
Proof.
  apply (@Update_then_Authenticate demo (claims_of ana) id_ana "ana-secret" ana_renamed
           noon later two_users ana); try reflexivity.
  - left. now left.
  - right. now left.
  - intros v [Hv | [Hv | []]]; subst v; [discriminate | reflexivity].
  - intros v [Hv | [Hv | []]]; subst v; [discriminate | intros Hne; now elim Hne].
Defined.

(** ** Paging, further *)

Lemma firstn_add {A : Type} (a b : nat) (l : list A) :
  firstn (a + b) l = firstn a l ++ firstn b (skipn a l).
Proof.
  revert l. induction a as [|a IH]; intros l; [reflexivity|].
  destruct l as [|x l]; [simpl; now rewrite firstn_nil|].
  simpl. f_equal. apply IH.
Qed.

Lemma page_append (offset limit : Z) (l : list User) :
  0 <= offset -> 0 <= limit ->
  page offset limit l ++ page (offset + limit) limit l = page offset (2 * limit) l.
Proof.
  intros Ho Hl. unfold page.
  replace (2 * limit) with (limit + limit) by lia.
  rewrite !Z2Nat.inj_add by assumption.
  rewrite firstn_add, skipn_skipn.
  now rewrite (Nat.add_comm (Z.to_nat limit) (Z.to_nat offset)).
Qed.

Lemma order_by_user_id_length (l : list User) :
  List.length (order_by_user_id l) = List.length l.
Proof.
  symmetry. apply Permutation_length, order_by_user_id_perm.
Qed.

(** What [GetAll] returns when the offset fits, the page size is not
    negative and the driver lets the statement through. *)
Lemma GetAll_answered `{Collaborators} (pageNumber rowsPerPage : Z) (w : World) :
  is_int (pageNumber - 1) ->
  is_int ((pageNumber - 1) * rowsPerPage) ->
  0 <= (pageNumber - 1) * rowsPerPage -> 0 <= rowsPerPage ->
  driver_fault (table w) (SelectPage ((pageNumber - 1) * rowsPerPage) rowsPerPage) = None ->
  fst (GetAll pageNumber rowsPerPage w)
  = (page ((pageNumber - 1) * rowsPerPage) rowsPerPage (order_by_user_id (table w)), None).
Proof.
  intros Hp Hfit Hoff Hr Hok.
  pose proof (GetAll_run pageNumber rowsPerPage w) as Hrun. cbv zeta in Hrun.
  rewrite (offset_exact _ _ Hp Hfit) in Hrun. rewrite Hrun, Hok.
  apply Z.ltb_ge in Hoff, Hr. now rewrite Hoff, Hr.
Qed.

(** X20.  Consecutive pages follow each other without gap or overlap:
    when the store answers both, page [pageNumber] followed by page
    [pageNumber + 1] is the double-sized page that starts where the first
    one starts. *)
Theorem GetAll_pages_follow_each_other `{Collaborators}
        (pageNumber rowsPerPage : Z) (w : World) :
  let offset := (pageNumber - 1) * rowsPerPage in
  let ordered := order_by_user_id (table w) in
  1 <= pageNumber -> is_int (pageNumber + 1) ->
  0 <= rowsPerPage -> is_int (pageNumber * rowsPerPage) ->
  driver_fault (table w) (SelectPage offset rowsPerPage) = None ->
  driver_fault (table w) (SelectPage (offset + rowsPerPage) rowsPerPage) = None ->
  exists first second,
    fst (GetAll pageNumber rowsPerPage w) = (first, None)
    /\ fst (GetAll (pageNumber + 1) rowsPerPage w) = (second, None)
    /\ first ++ second = page offset (2 * rowsPerPage) ordered.
Proof.
  intros offset ordered Hone Hnext Hr Hfit Hok1 Hok2.
  assert (Hoff : 0 <= offset) by (unfold offset; nia).
  assert (Hsum : offset + rowsPerPage = (pageNumber + 1 - 1) * rowsPerPage)
    by (unfold offset; lia).
  exists (page offset rowsPerPage ordered), (page (offset + rowsPerPage) rowsPerPage ordered).
  split; [|split].
  - apply GetAll_answered; try assumption.
    + unfold is_int, int_min, int_max in *. lia.
    + unfold is_int, int_min, int_max in *. fold offset. nia.
  - rewrite Hsum. apply GetAll_answered; try assumption.
    + unfold is_int, int_min, int_max in *. lia.
    + replace (pageNumber + 1 - 1) with pageNumber by lia. exact Hfit.
    + rewrite <- Hsum. lia.
    + now rewrite <- Hsum.
  - now apply page_append.
Qed.

Lemma GetAll_pages_follow_each_other_witness :
  exists first second,
    fst (@GetAll demo 1 1 two_users) = (first, None)
    /\ fst (@GetAll demo (1 + 1) 1 two_users) = (second, None)
    /\ first ++ second = page ((1 - 1) * 1) (2 * 1) (order_by_user_id (table two_users)).
Proof.
  apply (@GetAll_pages_follow_each_other demo 1 1 two_users);
    try reflexivity; try lia; int_range.
Defined.

(** X21.  Asking past the end is no error: when the offset is at least
    the number of rows (in particular on an empty table) and the store
    answers, [GetAll] returns the empty list and no error. *)
Theorem GetAll_past_the_end_is_empty `{Collaborators}
        (pageNumber rowsPerPage : Z) (w : World) :
  1 <= pageNumber -> is_int pageNumber ->
  0 <= rowsPerPage -> is_int ((pageNumber - 1) * rowsPerPage) ->
  Z.of_nat (List.length (table w)) <= (pageNumber - 1) * rowsPerPage ->
  driver_fault (table w) (SelectPage ((pageNumber - 1) * rowsPerPage) rowsPerPage) = None ->
  fst (GetAll pageNumber rowsPerPage w) = ([], None).
Proof.
  intros Hone Hp Hr Hfit Hpast Hok.
  rewrite GetAll_answered; try assumption.
  - unfold page. rewrite skipn_all2; [now rewrite firstn_nil|].
    rewrite order_by_user_id_length. lia.
  - unfold is_int, int_min, int_max in *. lia.
  - lia.
Qed.

Lemma GetAll_past_the_end_is_empty_witness :
  fst (@GetAll demo 2 2 two_users) = ([], None)
  /\ fst (@GetAll demo 1 10 empty_world) = ([], None).
Proof.
  split.
  - apply (@GetAll_past_the_end_is_empty demo 2 2 two_users);
      try reflexivity; try (simpl; lia); int_range.
  - apply (@GetAll_past_the_end_is_empty demo 1 10 empty_world);
      try reflexivity; try (simpl; lia); int_range.
Defined.

Lemma page_incl (offset limit : Z) (l : list User) (u : User) :
  In u (page offset limit l) -> In u l.
Proof.
  unfold page. intros Hin.
  rewrite <- (firstn_skipn (Z.to_nat offset) l). apply in_or_app. right.
  rewrite <- (firstn_skipn (Z.to_nat limit) (skipn (Z.to_nat offset) l)).
  apply in_or_app. now left.
Qed.

(** X22.  [GetAll] invents nothing: every user it returns, whatever the
    page asked for and whatever the store answers, is a row of the
    table. *)
Theorem GetAll_returns_stored_rows `{Collaborators}
        (pageNumber rowsPerPage : Z) (w : World) (u : User) :
  In u (fst (fst (GetAll pageNumber rowsPerPage w))) -> In u (table w).
Proof.
  pose proof (GetAll_run pageNumber rowsPerPage w) as Hrun. cbv zeta in Hrun.
  rewrite Hrun. branches; cbn [fst]; intros Hin; try contradiction.
  apply page_incl in Hin.
  eapply Permutation_in; [|exact Hin].
  symmetry. apply order_by_user_id_perm.
Qed.

Lemma GetAll_returns_stored_rows_witness : In bob (table two_users).
Proof.
  apply (@GetAll_returns_stored_rows demo 2 1 two_users bob). now left.
Defined.

(** X23.  The first page, when its size is at least the number of rows
    and the store answers, is the whole table: every row once, in ascending
    order of identifier. *)
Theorem GetAll_first_page_lists_everyone `{Collaborators} (rowsPerPage : Z) (w : World) :
  Z.of_nat (List.length (table w)) <= rowsPerPage ->
  driver_fault (table w) (SelectPage 0 rowsPerPage) = None ->
  exists users,
    fst (GetAll 1 rowsPerPage w) = (users, None)
    /\ Permutation (table w) users
    /\ ascending users.
Proof.
  intros Hall Hok. exists (order_by_user_id (table w)).
  pose proof (GetAll_run 1 rowsPerPage w) as Hrun. cbv zeta in Hrun.
  assert (Hoff : int_mul (int_sub 1 1) rowsPerPage = 0).
  { unfold int_mul. change (int_sub 1 1) with 0. now rewrite Z.mul_0_l. }
  rewrite Hoff in Hrun. rewrite Hrun, Hok. cbn [Z.ltb Z.compare].
  assert (Hr : (rowsPerPage <? 0) = false) by (apply Z.ltb_ge; lia).
  rewrite Hr. unfold page. cbn [Z.to_nat skipn].
  rewrite firstn_all2 by (rewrite order_by_user_id_length; lia).
  split; [reflexivity|]. split.
  - apply order_by_user_id_perm.
  - apply order_by_user_id_ascending.
Qed.

Lemma GetAll_first_page_lists_everyone_witness :
  exists users,
    fst (@GetAll demo 1 5 two_users) = (users, None)
    /\ Permutation (table two_users) users
    /\ ascending users.
Proof.
  apply (@GetAll_first_page_lists_everyone demo 5 two_users).
  - simpl. lia.
  - reflexivity.
Defined.

(** * Properties of the administration command *)

Example admin_runs :
  @admin.main admin.demo_tools ["migrate"%string]
  = [admin.LogConfig "--db-user=postgres";
     admin.Ran (admin.Migrate
                  (admin.database.mkConfig "postgres" "postgres" "0.0.0.0" "postgres" true))]
  /\ @admin.main admin.demo_tools ["--help"%string; "migrate"%string]
     = [admin.Println "Usage: SERVICE"]
  /\ @admin.main admin.demo_tools []
     = admin.LogConfig "--db-user=postgres" :: admin.help_lines ++ [admin.Exit 1]
  /\ @admin.main admin.demo_tools ["seed"%string]
     = [admin.LogConfig "--db-user=postgres";
        admin.Ran (admin.Seed
                     (admin.database.mkConfig "postgres" "postgres" "0.0.0.0" "postgres" true));
        admin.LogError (admin.wrap (admin.failure "connection refused") "seeding database");
        admin.Exit 1].
Proof. repeat split. Qed.

(** X25.  [run] launches at most one command, and only in good order: a
    command is launched only when the arguments parsed and the
    configuration could be printed, it is the one the first argument names,
    and [migrate] and [seed] receive the database settings that were
    parsed, field by field. *)
Theorem at_most_one_command_is_launched `{admin.Tools} (args : list string) :
  (List.length (admin.launched (fst (admin.run args))) <= 1)%nat
  /\ forall c,
       In c (admin.launched (fst (admin.run args))) ->
       exists cfg,
         admin.conf_Parse args admin.prefix admin.initial_cfg = (cfg, None)
         /\ snd (admin.conf_String cfg) = None
         /\ ((c = admin.Migrate (admin.dbConfig cfg)
              /\ admin.Num (admin.Args cfg) 0 = "migrate"%string)
             \/ (c = admin.Seed (admin.dbConfig cfg)
                 /\ admin.Num (admin.Args cfg) 0 = "seed"%string)
             \/ (c = admin.GenKey
                 /\ admin.Num (admin.Args cfg) 0 = "genkey"%string)).
Proof.
  unfold admin.run.
  destruct (admin.conf_Parse args admin.prefix admin.initial_cfg) as [cfg [e|]] eqn:Hparse.
  - split.
    + branches; simpl; lia.
    + intros c. branches; simpl; tauto.
  - destruct (admin.conf_String cfg) as [out [e|]] eqn:Hout.
    + split; [simpl; lia|]. intros c [].
    + cbv zeta.
      destruct (String.eqb (admin.Num (admin.Args cfg) 0) "migrate") eqn:Hm;
        [|destruct (String.eqb (admin.Num (admin.Args cfg) 0) "seed") eqn:Hs;
          [|destruct (String.eqb (admin.Num (admin.Args cfg) 0) "genkey") eqn:Hg]].
      * apply String.eqb_eq in Hm.
        destruct (admin.commands_Migrate _); cbn [fst]; (split; [simpl; lia|]);
          intros c [Hc | []]; subst c; exists cfg; rewrite Hout; tauto.
      * apply String.eqb_eq in Hs.
        destruct (admin.commands_Seed _); cbn [fst]; (split; [simpl; lia|]);
          intros c [Hc | []]; subst c; exists cfg; rewrite Hout; tauto.
      * apply String.eqb_eq in Hg.
        destruct (admin.commands_GenKey); cbn [fst]; (split; [simpl; lia|]);
          intros c [Hc | []]; subst c; exists cfg; rewrite Hout; tauto.
      * split; [simpl; lia|]. intros c [].
Qed.

(** [run] itself neither exits nor logs an error. *)
Lemma run_leaves_the_ending_to_main `{admin.Tools} (args : list string) :
  forall x, In x (fst (admin.run args)) ->
            (forall code, x <> admin.Exit code) /\ (forall e, x <> admin.LogError e).
Proof.
  intros x. unfold admin.run, admin.help_lines. branches; cbn [fst In];
    intuition (subst; discriminate).
Qed.

(** X26.  The exit status tells whether [run] failed, and the log tells
    why: [main] exits, with status 1, exactly when [run] returned an error;
    and it logs an error, the one [run] returned, exactly when the cause of
    that error is not [ErrHelp]. *)
Theorem main_exits_1_exactly_on_error `{admin.Tools} (args : list string) :
  (forall code, In (admin.Exit code) (admin.main args)
                <-> code = 1 /\ snd (admin.run args) <> None)
  /\ (forall e, In (admin.LogError e) (admin.main args)
                <-> snd (admin.run args) = Some e /\ admin.Cause e <> admin.ErrHelp).
Proof.
  pose proof (run_leaves_the_ending_to_main args) as Hquiet.
  unfold admin.main.
  destruct (admin.run args) as [effects [e|]]; cbn [fst snd] in *.
  - split.
    + intros code. rewrite !in_app_iff. split.
      * intros [Hin | [Hin | [Hin | []]]].
        -- now elim (proj1 (Hquiet _ Hin) code).
        -- destruct (admin.is_ErrHelp _); [destruct Hin | destruct Hin as [Hin | []]];
             discriminate.
        -- injection Hin as Hin. split; [now subst code | discriminate].
      * intros [Hcode _]. subst code. right. right. now left.
    + intros e'. rewrite !in_app_iff. split.
      * intros [Hin | [Hin | [Hin | []]]].
        -- now elim (proj2 (Hquiet _ Hin) e').
        -- destruct (admin.Cause e) eqn:Hcause; cbn [admin.is_ErrHelp] in Hin;
             [destruct Hin | | | |];
             (destruct Hin as [Hin | []]; injection Hin as Hin; subst e';
              split; [reflexivity | rewrite Hcause; discriminate]).
        -- discriminate.
      * intros [Heq Hcause]. injection Heq as Heq. subst e'. right. left.
        destruct (admin.Cause e); cbn [admin.is_ErrHelp];
          [now elim Hcause | now left ..].
  - split.
    + intros code. split.
      * intros Hin. now elim (proj1 (Hquiet _ Hin) code).
      * intros [_ Hnone]. now elim Hnone.
    + intros e. split.
      * intros Hin. now elim (proj2 (Hquiet _ Hin) e).
      * intros [Hsome _]. discriminate.
Qed.

(** X27.  Asking for help or for the version does nothing else: when the
    parser reports that help (or the version) is wanted and the text can be
    produced, the tool prints that text and ends normally; the
    configuration is not logged and no command is launched, even if the
    arguments name one. *)
Theorem help_and_version_only_print `{admin.Tools}
        (args : list string) (cfg : admin.Cfg) (text : string) :
  (admin.conf_Parse args admin.prefix admin.initial_cfg = (cfg, Some admin.ErrHelpWanted) ->
   admin.conf_Usage admin.prefix cfg = (text, None) ->
   admin.main args = [admin.Println text])
  /\ (admin.conf_Parse args admin.prefix admin.initial_cfg
      = (cfg, Some admin.ErrVersionWanted) ->
      admin.conf_VersionString admin.prefix cfg = (text, None) ->
      admin.main args = [admin.Println text]).
Proof.
  split; intros Hparse Htext; unfold admin.main, admin.run;
    now rewrite Hparse, Htext.
Qed.

(** * Deletion and authentication *)

(** X28.  A deleted user can no longer authenticate: once [Delete] has
    gone through for an identifier, and every row that had the email
    carried that identifier, [Authenticate] with that email, whatever the
    password, reports [ErrAuthenticationFailure] as soon as the store
    answers. *)
Theorem Delete_then_Authenticate_fails `{Collaborators}
        (claims : auth.Claims) (userID email password : string)
        (now : time.Time) (w : World) :
  let w' := snd (Delete claims userID w) in
  uuid_Parse userID = None ->
  In RoleAdmin (auth.Roles claims) \/ auth.Subject claims = userID ->
  driver_fault (table w) (DeleteUser userID) = None ->
  (forall u, In u (table w) -> Email u = email -> ID u = userID) ->
  driver_fault (table w') (SelectByEmail email) = None ->
  fst (Delete claims userID w) = None
  /\ fst (Authenticate now email password w') = (auth.zero, Some ErrAuthenticationFailure).
Proof.
  intros w' Hid Hauth Hok Hown Hsel. apply guard_false_iff in Hauth.
  assert (Hrun : Delete claims userID w
                 = (None, mkWorld (filter (fun u => negb (String.eqb (ID u) userID)) (table w))
                                  (journal w ++ [DeleteUser userID]) (entropy w))).
  { now rewrite Delete_run, Hid, Hauth, Hok. }
  split; [now rewrite Hrun|].
  revert Hsel. unfold w'. rewrite Hrun. cbn [snd table]. intros Hsel.
  rewrite Authenticate_run. cbn [table]. rewrite Hsel.
  rewrite find_absent; [reflexivity|].
  intros u Hu. apply filter_In in Hu. destruct Hu as [Hin Hother].
  apply negb_true_iff, String.eqb_neq in Hother.
  apply String.eqb_neq. intros Hmail. apply Hother. now apply Hown.
Qed.

Lemma Delete_then_Authenticate_fails_witness :
  fst (@Delete demo (claims_of bob) id_bob two_users) = None
  /\ fst (@Authenticate demo later "bob@example.com" "bob-secret"
            (snd (@Delete demo (claims_of bob) id_bob two_users)))
     = (auth.zero, Some ErrAuthenticationFailure).
Proof.
  apply (@Delete_then_Authenticate_fails demo (claims_of bob) id_bob "bob@example.com"
           "bob-secret" later two_users); try reflexivity.
  - right. reflexivity.
  - intros u [Hu | [Hu | []]]; subst u; [reflexivity | discriminate].
Defined.
